(** * LocoHFT: the embedded Python strategy module (src/python/strategy.py)

    A shallow embedding of [LocoHFTStrategy] and of the Python operations
    it uses.  Python [float] is IEEE 754 binary64, embedded as Rocq's
    primitive [float]; Python [int] is [Z]; the two [dict] attributes of
    the strategy object are finite maps keyed by the symbol; a raised
    exception is an explicit [Raise] result. *)

From Stdlib Require Import ZArith Lia Floats Uint63.
From stdpp Require Import base option list gmap strings.

#[local] Set Warnings "-inexact-float".
Local Open Scope Z_scope.

(** ** Python operations on numbers *)

Module Py.

(** The built-in exceptions the strategy's arithmetic can raise. *)
Inductive exn : Set :=
| ZeroDivisionError
| OverflowError
| ValueError.

Inductive result (A : Type) : Type :=
| Ok (a : A)
| Raise (e : exn).
Arguments Ok {A} a.
Arguments Raise {A} e.

Definition bind {A B : Type} (r : result A) (k : A -> result B) : result B :=
  match r with
  | Ok a => k a
  | Raise e => Raise e
  end.

(** [len(l)] as a Python int. *)
Definition len {A : Type} (l : list A) : Z := Z.of_nat (length l).

(** Conversion of a Python int to the nearest float, as [float / int]
    performs it on its right operand.  The ints converted here are list
    lengths, which are below 2^63. *)
Definition float_of_int (n : Z) : float := PrimFloat.of_uint63 (Uint63.of_Z n).

(** [x / y] on two floats: a zero divisor, of either sign, raises. *)
Definition truediv (x y : float) : result float :=
  if PrimFloat.eqb y 0%float then Raise ZeroDivisionError
  else Ok (PrimFloat.div x y).

(** [x / n] with [n] an int: [n] is converted to a float and the floats
    are divided; the int 0 is the only one that converts to a zero
    divisor (see [truediv_int_as_truediv]). *)
Definition truediv_int (x : float) (n : Z) : result float :=
  if n =? 0 then Raise ZeroDivisionError
  else Ok (PrimFloat.div x (float_of_int n)).

(** [x ** 2] on a float: the correctly rounded square, except that a
    finite [x] whose square overflows raises (an underflow to zero does
    not). *)
Definition pow2 (x : float) : result float :=
  let r := PrimFloat.mul x x in
  if PrimFloat.is_finite x && PrimFloat.is_infinity r
  then Raise OverflowError
  else Ok r.

(** [math.sqrt(x)]: a NaN result for an argument that is not NaN (a
    negative argument) is a domain error. *)
Definition math_sqrt (x : float) : result float :=
  let r := PrimFloat.sqrt x in
  if PrimFloat.is_nan r && negb (PrimFloat.is_nan x)
  then Raise ValueError
  else Ok r.

(** [sum(xs)] on a list of floats: the int 0 start value becomes 0.0 and
    the items are added left to right, each addition rounded (CPython's
    float loop, without the compensation term that 3.12 adds). *)
Definition sum (xs : list float) : float :=
  fold_left PrimFloat.add xs 0%float.

End Py.

Import Py.

(** The error monad of [result], with stdpp's [x ← r; k] notation. *)
#[global] Instance result_ret : MRet result := fun _ a => Ok a.
#[global] Instance result_bind : MBind result := fun _ _ k r => Py.bind r k.

(** ** The strategy object *)

(** [class Signal]: a dataclass; [metadata] is a dict literal with two
    keys, kept in insertion order. *)
Record Signal : Type := mkSignal {
  action : string;
  size : float;
  price : float;
  confidence : float;
  metadata : list (string * float)
}.

(** The attributes of a [LocoHFTStrategy] instance. *)
Record LocoHFTStrategy : Type := mkStrategy {
  capital : float;
  positions : gmap string Z;
  price_history : gmap string (list float);
  lookback : Z
}.

(** [__init__(self, capital = 100000.0)]: the lookback is not a
    parameter, the constructor sets it to 20. *)
Definition __init__ (capital : float) : LocoHFTStrategy :=
  {| capital := capital; positions := ∅; price_history := ∅; lookback := 20 |}.

Definition default_capital : float := 100000%float.

(** The module's global instance, [strategy = LocoHFTStrategy()]. *)
Definition strategy : LocoHFTStrategy := __init__ default_capital.

Definition set_price_history (self : LocoHFTStrategy)
    (h : gmap string (list float)) : LocoHFTStrategy :=
  {| capital := capital self; positions := positions self;
     price_history := h; lookback := lookback self |}.

Definition set_positions (self : LocoHFTStrategy)
    (p : gmap string Z) : LocoHFTStrategy :=
  {| capital := capital self; positions := p;
     price_history := price_history self; lookback := lookback self |}.

(** Assignment to the [lookback] attribute of an existing instance. *)
Definition set_lookback (self : LocoHFTStrategy) (n : Z) : LocoHFTStrategy :=
  {| capital := capital self; positions := positions self;
     price_history := price_history self; lookback := n |}.

(** [self.price_history[symbol]], the empty list before the first tick of
    the symbol (lines 30-31). *)
Definition window (self : LocoHFTStrategy) (symbol : string) : list float :=
  default [] (price_history self !! symbol).

(** [self.positions.get(symbol, 0)] *)
Definition position (self : LocoHFTStrategy) (symbol : string) : Z :=
  default 0 (positions self !! symbol).

(** Lines 33-35: [append(price)], then [pop(0)] when the list is longer
    than the lookback. *)
Definition push_price (lookback : Z) (h : list float) (price : float) : list float :=
  let h1 := h ++ [price] in
  if lookback <? len h1 then tail h1 else h1.

(** The locals of lines 42-48. *)
Record Bands : Type := mkBands {
  sma : float;
  variance : float;
  std : float;
  upper : float;
  lower : float
}.

(** [sum((p - sma) ** 2 for p in prices)]: the generator is consumed item
    by item, so the first overflowing square stops the sum. *)
Fixpoint sum_sq_dev (sma : float) (acc : float) (prices : list float) : result float :=
  match prices with
  | [] => Ok acc
  | p :: rest =>
      sq ← pow2 (PrimFloat.sub p sma);
      sum_sq_dev sma (PrimFloat.add acc sq) rest
  end.

(** Lines 42-48: the Bollinger bands of the window. *)
Definition bollinger (prices : list float) : result Bands :=
  sma ← truediv_int (Py.sum prices) (len prices);
  ss ← sum_sq_dev sma 0%float prices;
  variance ← truediv_int ss (len prices);
  std ← math_sqrt variance;
  let upper := PrimFloat.add sma (PrimFloat.mul 2%float std) in
  let lower := PrimFloat.sub sma (PrimFloat.mul 2%float std) in
  Ok (mkBands sma variance std upper lower).

(** What one call of [on_market_data] does, by return site: line 39
    ([Insufficient]), line 63 ([NoSignal]), lines 56 and 61 ([Emitted]),
    or an exception that leaves the method ([Raised]). *)
Inductive outcome : Type :=
| Insufficient
| NoSignal
| Emitted (s : Signal)
| Raised (e : exn).

(** The value the caller receives: [None] at lines 39 and 63, the
    signal's [__dict__] at lines 56 and 61. *)
Definition returned (o : outcome) : result (option Signal) :=
  match o with
  | Insufficient | NoSignal => Ok None
  | Emitted s => Ok (Some s)
  | Raised e => Raise e
  end.

(** [Signal(act, 100.0, price, 0.8, {"sma": sma, "z_score": (price - sma)/std})] *)
Definition signal_of (act : string) (price : float) (b : Bands) : result Signal :=
  z ← truediv (PrimFloat.sub price (sma b)) (std b);
  Ok (mkSignal act 100%float price 0.8%float
        [("sma"%string, sma b); ("z_score"%string, z)]).

(** Lines 50-63: the mean-reversion rule, on the object as it is after
    the window update.  The signal is built before the position is
    assigned, so a raising z-score leaves the ledger as it was. *)
Definition mean_reversion (self : LocoHFTStrategy) (symbol : string)
    (price : float) (b : Bands) : LocoHFTStrategy * outcome :=
  let current_pos := position self symbol in
  if PrimFloat.ltb price (lower b) && (current_pos <=? 0) then
    match signal_of "BUY" price b with
    | Raise e => (self, Raised e)
    | Ok s => (set_positions self (<[symbol := current_pos + 100]> (positions self)),
               Emitted s)
    end
  else if PrimFloat.ltb (upper b) price && (0 <=? current_pos) then
    match signal_of "SELL" price b with
    | Raise e => (self, Raised e)
    | Ok s => (set_positions self (<[symbol := current_pos - 100]> (positions self)),
               Emitted s)
    end
  else (self, NoSignal).

(** [on_market_data(self, symbol, price, volume, timestamp)]: the object
    after the call and the call's outcome.  The window update of lines
    30-35 is kept when a later line raises. *)
Definition on_market_data (self : LocoHFTStrategy) (symbol : string)
    (price volume : float) (timestamp : Z) : LocoHFTStrategy * outcome :=
  let prices := push_price (lookback self) (window self symbol) price in
  let self1 := set_price_history self (<[symbol := prices]> (price_history self)) in
  if len prices <? lookback self then (self1, Insufficient)
  else
    match bollinger prices with
    | Raise e => (self1, Raised e)
    | Ok b => mean_reversion self1 symbol price b
    end.

(** [calculate_portfolio_weights(self, returns_data)] *)
Definition calculate_portfolio_weights (self : LocoHFTStrategy)
    (returns_data : list (list float)) : result (list float) :=
  let n := len returns_data in
  w ← truediv_int 1%float n;
  Ok (repeat w (Z.to_nat n)).

(** [on_risk_update(self, var_95, exposure)]: the object after the call
    (nothing is assigned), the VaR that line 74 prints if any, and the
    verdict. *)
Definition on_risk_update (self : LocoHFTStrategy) (var_95 exposure : float)
    : LocoHFTStrategy * option float * bool :=
  if PrimFloat.ltb (PrimFloat.mul (capital self) 0.02%float) var_95
  then (self, Some var_95, false)
  else (self, None, true).

(** ** Tick streams *)

Record PriceTick : Type := mkTick {
  tick_symbol : string;
  tick_price : float;
  tick_volume : float;
  tick_timestamp : Z
}.

Definition feed (self : LocoHFTStrategy) (t : PriceTick) : LocoHFTStrategy * outcome :=
  on_market_data self (tick_symbol t) (tick_price t) (tick_volume t) (tick_timestamp t).

(** The host calls [on_market_data] tick after tick on the same object;
    an exception reaches the host and the object lives on. *)
Fixpoint run (self : LocoHFTStrategy) (ticks : list PriceTick)
    : LocoHFTStrategy * list outcome :=
  match ticks with
  | [] => (self, [])
  | t :: rest =>
      let '(self1, o) := feed self t in
      let '(self2, os) := run self1 rest in
      (self2, o :: os)
  end.

(** Ticks of one symbol with the given prices, unit volume and the index
    as timestamp. *)
Definition ticks_of (sym : string) (prices : list float) : list PriceTick :=
  imap (fun i p => mkTick sym p 1%float (Z.of_nat i)) prices.

(** ** Vocabulary of the statements *)

(** The window as lines 30-35 leave it, and the object at line 37. *)
Definition prices_at_37 (self : LocoHFTStrategy) (symbol : string)
    (price : float) : list float :=
  push_price (lookback self) (window self symbol) price.

Definition self_at_37 (self : LocoHFTStrategy) (symbol : string)
    (price : float) : LocoHFTStrategy :=
  set_price_history self
    (<[symbol := prices_at_37 self symbol price]> (price_history self)).

(** The signal the strategy builds for an action on a tick. *)
Definition expected_signal (act : string) (price : float) (b : Bands) : Signal :=
  mkSignal act 100%float price 0.8%float
    [("sma"%string, sma b);
     ("z_score"%string, PrimFloat.div (PrimFloat.sub price (sma b)) (std b))].

(** The statistics in the specification's words, on binary64: the
    arithmetic mean of the window, and its population variance (the sum
    of the squared deviations from the mean over the number of prices). *)
Definition arithmetic_mean (w : list float) : float :=
  PrimFloat.div (Py.sum w) (float_of_int (len w)).

Definition squared_deviation (m p : float) : float :=
  PrimFloat.mul (PrimFloat.sub p m) (PrimFloat.sub p m).

Definition population_variance (w : list float) : float :=
  PrimFloat.div (Py.sum (map (squared_deviation (arithmetic_mean w)) w))
                (float_of_int (len w)).

(** The prices of the ticks of one symbol, in arrival order. *)
Definition prices_of (sym : string) (ticks : list PriceTick) : list float :=
  map tick_price (filter (fun t => tick_symbol t = sym) ticks).

(** The last [n] elements of a list, in order. *)
Definition last_n {A : Type} (n : nat) (l : list A) : list A :=
  drop (length l - n) l.

(** The object [self] holds, for every symbol, the last [L] prices of the
    ticks [seen] so far. *)
Definition tracks (L : Z) (self : LocoHFTStrategy) (seen : list PriceTick) : Prop :=
  lookback self = L /\
  forall sym, window self sym = last_n (Z.to_nat L) (prices_of sym seen).

(** Every recorded position is flat or one lot long or short. *)
Definition one_lot (self : LocoHFTStrategy) : Prop :=
  forall sym,
    position self sym = -100 \/ position self sym = 0 \/ position self sym = 100.

Definition between (lo x hi : float) : Prop :=
  PrimFloat.ltb lo x = true /\ PrimFloat.ltb x hi = true.

(** ** Concrete engines and streams *)

(** Nineteen ticks at 100 for "X": one short of a full window. *)
Definition warmup_ticks : list PriceTick := ticks_of "X" (replicate 19 100%float).

Definition warm : LocoHFTStrategy := fst (run strategy warmup_ticks).

(** The engine after the warm-up and a BUY at 50: long 100 on "X". *)
Definition long_engine : LocoHFTStrategy :=
  fst (run strategy (warmup_ticks ++ [mkTick "X" 50%float 1%float 19])).

(** The bands of eighteen prices at 100, one at 50 and one at 10. *)
Definition long_bands : Bands :=
  mkBands 93%float 481%float (PrimFloat.sqrt 481%float)
    (PrimFloat.add 93%float (PrimFloat.mul 2%float (PrimFloat.sqrt 481%float)))
    (PrimFloat.sub 93%float (PrimFloat.mul 2%float (PrimFloat.sqrt 481%float))).

(** Nineteen prices at 2e-200 and one at 1e-200: every squared deviation
    from their mean underflows to zero. *)
Definition tiny_prices : list float :=
  replicate 19 2e-200%float ++ [1e-200%float].

(** The price 0.1 * 2^-600, for a constant stream. *)
Definition tiny_constant : float := 0x1.999999999999ap-604%float.

(** The worked example: prices for "Y" and an engine constructed with
    capital 100000 whose [lookback] attribute is then set to 3 (the
    constructor takes no lookback). *)
Definition example_prices : list float := [100; 102; 98; 80]%float.

Definition example_engine : LocoHFTStrategy :=
  set_lookback (__init__ 100000%float) 3.

(** ** Vocabulary of binary64 rounding

    Stdlib's [SpecFloat] specifies the primitive operations: a result is
    an integer mantissa shifted to its canonical exponent and rounded to
    nearest even.  The definitions below describe that pipeline. *)

Definition b2z (b : bool) : Z := if b then 1 else 0.

(** What [k] right shifts of the mantissa [q] leave: the quotient, the
    last bit shifted out (round bit) and whether anything below it was
    set (sticky bit). *)
Definition shr_inv (k : Z) (q : Z) (mrs : shr_record) : Prop :=
  0 <= shr_m mrs /\
  exists rest,
    2 * q = 2 ^ k * (2 * shr_m mrs + b2z (shr_r mrs)) + rest /\
    0 <= rest < 2 ^ k /\
    (shr_s mrs = true <-> 0 < rest).

(** [n] is within half a unit of [q / 2^k]. *)
Definition near (k q n : Z) : Prop :=
  0 <= n /\ 2 ^ (k + 1) * n - 2 ^ k <= 2 * q <= 2 ^ (k + 1) * n + 2 ^ k.

(** A finite result, or the infinity when the exponent is too large. *)
Definition fin (sx : bool) (m : positive) (x : Z) : spec_float :=
  if x <=? emax - prec then S754_finite sx m x else S754_infinity sx.

Definition two53 : Z := 2 ^ 53.

(** The result for a rounded mantissa [n <= 2^53] at exponent [c]: a
    mantissa that rounded up to 2^53 moves to the next exponent. *)
Definition carried (sx : bool) (n c : Z) : spec_float :=
  match n with
  | Z0 => S754_zero sx
  | Zpos p => if n <? two53 then fin sx p c else fin sx 4503599627370496 (c + 1)
  | Zneg _ => S754_nan
  end.

(** The order of [SFcompare] on floats that are not NaN is the
    lexicographic order of these triples. *)
Definition rnk (f : spec_float) : Z * (Z * Z) :=
  match f with
  | S754_nan => (0, (0, 0))
  | S754_zero _ => (0, (0, 0))
  | S754_infinity false => (2, (0, 0))
  | S754_infinity true => (-2, (0, 0))
  | S754_finite false m e => (1, (e, Zpos m))
  | S754_finite true m e => (-1, (- e, - Zpos m))
  end.

Definition lex_lt (a b : Z * (Z * Z)) : Prop :=
  fst a < fst b \/
  (fst a = fst b /\
   (fst (snd a) < fst (snd b) \/
    (fst (snd a) = fst (snd b) /\ snd (snd a) < snd (snd b)))).

Definition lex_le (a b : Z * (Z * Z)) : Prop := lex_lt a b \/ a = b.

Definition neg3 (a : Z * (Z * Z)) : Z * (Z * Z) :=
  (- fst a, (- fst (snd a), - snd (snd a))).

(** A float whose sign bit, if it has one, is clear. *)
Definition not_negative (t : spec_float) : Prop :=
  match t with
  | S754_zero s | S754_infinity s | S754_finite s _ _ => s = false
  | S754_nan => True
  end.

(** * Properties *)

(** ** Facts on binary64 *)

Section FloatFacts.

Lemma SFcompare_refl_not_Lt (f : spec_float) : SFcompare f f <> Some Lt.
Proof.
  destruct f as [s|s| |s m e]; simpl; try discriminate.
  - destruct s; discriminate.
  - rewrite Z.compare_refl, Pos.compare_cont_refl. destruct s; discriminate.
Qed.

Lemma ltb_irrefl (x : float) : PrimFloat.ltb x x = false.
Proof.
  rewrite FloatAxioms.ltb_spec. unfold SFltb.
  pose proof (SFcompare_refl_not_Lt (Prim2SF x)) as H.
  destruct (SFcompare (Prim2SF x) (Prim2SF x)) as [[]|]; congruence.
Qed.

(** A float strictly above 0.0 does not compare equal to 0.0. *)
Lemma positive_not_zero (x : float) :
  PrimFloat.ltb 0%float x = true -> PrimFloat.eqb x 0%float = false.
Proof.
  rewrite FloatAxioms.ltb_spec, FloatAxioms.eqb_spec.
  change (Prim2SF 0%float) with (S754_zero false).
  unfold SFltb, SFeqb.
  destruct (Prim2SF x) as [s|s| |s m e]; simpl; try discriminate.
  - destruct s; [discriminate | reflexivity].
  - destruct s; [discriminate | reflexivity].
Qed.

(** *** Rounding to the canonical exponent *)

Lemma iter_pos_nat {A : Type} (f : A -> A) (p : positive) (x : A) :
  SpecFloat.iter_pos f p x = Nat.iter (Pos.to_nat p) f x.
Proof.
  revert x. induction p as [p IH|p IH|]; intros x; cbn [SpecFloat.iter_pos].
  - rewrite !IH, Pos2Nat.inj_xI. change (f x) with (Nat.iter 1 f x).
    rewrite <- !Nat.iter_add. f_equal. lia.
  - rewrite !IH, Pos2Nat.inj_xO, <- Nat.iter_add. f_equal. lia.
  - reflexivity.
Qed.

(** The number of digits of a mantissa bounds it. *)
Lemma digits2_pos_bounds (q : positive) :
  2 ^ (Zpos (digits2_pos q) - 1) <= Zpos q < 2 ^ Zpos (digits2_pos q).
Proof.
  induction q as [q IH|q IH|]; cbn [digits2_pos].
  - rewrite Pos2Z.inj_succ.
    replace (Z.succ (Zpos (digits2_pos q)) - 1)
      with (Z.succ (Zpos (digits2_pos q) - 1)) by lia.
    rewrite !Z.pow_succ_r by lia. lia.
  - rewrite Pos2Z.inj_succ.
    replace (Z.succ (Zpos (digits2_pos q)) - 1)
      with (Z.succ (Zpos (digits2_pos q) - 1)) by lia.
    rewrite !Z.pow_succ_r by lia. lia.
  - simpl. lia.
Qed.

Lemma shr_1_inv (k q : Z) (mrs : shr_record) :
  0 <= k -> shr_inv k q mrs -> shr_inv (k + 1) q (shr_1 mrs).
Proof.
  intros Hk (Hm & rest & H2 & Hr & Hs).
  destruct mrs as [m r s]. cbn [shr_m shr_r shr_s] in *.
  assert (Hp : 2 ^ (k + 1) = 2 * 2 ^ k) by (rewrite Z.pow_add_r by lia; lia).
  assert (Hpos : 0 < 2 ^ k) by (apply Z.pow_pos_nonneg; lia).
  assert (Hs' : (r || s = true) <-> 0 < 2 ^ k * b2z r + rest).
  { destruct r; simpl; [split; [lia|auto]|]. rewrite Hs. lia. }
  unfold shr_inv.
  destruct m as [|[p|p|]|p]; cbn [shr_1 shr_m shr_r shr_s]; try lia.
  all: split; [lia|].
  all: exists (2 ^ k * b2z r + rest); rewrite Hp; cbn [b2z].
  all: split; [|split; [destruct r; cbn [b2z]; lia | exact Hs']].
  all: rewrite H2; try rewrite (Pos2Z.inj_xI p); try rewrite (Pos2Z.inj_xO p); ring.
Qed.

Lemma iter_shr_1_inv (k : nat) (q : Z) :
  0 <= q ->
  shr_inv (Z.of_nat k) q (Nat.iter k shr_1 (Build_shr_record q false false)).
Proof.
  intros Hq. induction k as [|k IH].
  - simpl. split; [exact Hq|]. exists 0. cbn. split; [lia|]. split; [lia|].
    split; [discriminate|lia].
  - rewrite Nat.iter_succ, Nat2Z.inj_succ. apply shr_1_inv; [lia|exact IH].
Qed.

Lemma round_near (k q : Z) (mrs : shr_record) :
  0 <= k -> shr_inv k q mrs ->
  near k q (round_nearest_even (shr_m mrs) (loc_of_shr_record mrs)).
Proof.
  intros Hk (Hm & rest & H2 & Hr & Hs).
  destruct mrs as [m r s]. cbn [shr_m shr_r shr_s] in *.
  assert (Hp : 2 ^ (k + 1) = 2 * 2 ^ k) by (rewrite Z.pow_add_r by lia; lia).
  assert (Hpos : 0 < 2 ^ k) by (apply Z.pow_pos_nonneg; lia).
  unfold near. rewrite Hp.
  destruct r, s; cbn [loc_of_shr_record round_nearest_even b2z] in *.
  - assert (0 < rest) by (apply Hs; reflexivity). split; nia.
  - assert (rest = 0).
    { destruct (Z.lt_ge_cases 0 rest) as [Hc|Hc]; [|lia].
      apply Hs in Hc. discriminate. }
    destruct (Z.even m); split; nia.
  - split; nia.
  - split; nia.
Qed.

Lemma near_mono (k q1 q2 n1 n2 : Z) :
  0 <= k -> q1 < q2 -> near k q1 n1 -> near k q2 n2 -> n1 <= n2.
Proof.
  intros Hk Hq (H1 & L1 & U1) (H2 & L2 & U2).
  assert (Hp : 2 ^ (k + 1) = 2 * 2 ^ k) by (rewrite Z.pow_add_r by lia; lia).
  assert (Hpos : 0 < 2 ^ k) by (apply Z.pow_pos_nonneg; lia).
  rewrite Hp in *. nia.
Qed.

Lemma near_upper (k q n b : Z) :
  0 <= k -> 0 <= b -> near k q n -> q < 2 ^ (k + b) -> n <= 2 ^ b.
Proof.
  intros Hk Hb (H1 & L1 & U1) Hq.
  assert (Hp : 2 ^ (k + 1) = 2 * 2 ^ k) by (rewrite Z.pow_add_r by lia; lia).
  assert (Hpos : 0 < 2 ^ k) by (apply Z.pow_pos_nonneg; lia).
  rewrite Z.pow_add_r in Hq by lia.
  assert (Hposb : 0 < 2 ^ b) by (apply Z.pow_pos_nonneg; lia).
  rewrite Hp in *. nia.
Qed.

Lemma near_lower (k q n b : Z) :
  0 <= k -> 0 <= b -> near k q n -> 2 ^ (k + b) <= q -> 2 ^ b <= n.
Proof.
  intros Hk Hb (H1 & L1 & U1) Hq.
  assert (Hp : 2 ^ (k + 1) = 2 * 2 ^ k) by (rewrite Z.pow_add_r by lia; lia).
  assert (Hpos : 0 < 2 ^ k) by (apply Z.pow_pos_nonneg; lia).
  rewrite Z.pow_add_r in Hq by lia.
  assert (Hposb : 0 < 2 ^ b) by (apply Z.pow_pos_nonneg; lia).
  rewrite Hp in *. nia.
Qed.

Lemma fexp_ge_emin (x : Z) : emin <= fexp prec emax x.
Proof. unfold fexp. lia. Qed.

Lemma shr_fexp_noop (q : positive) (c : Z) :
  fexp prec emax (Zpos (digits2_pos q) + c) <= c ->
  shr_fexp prec emax (Zpos q) c loc_Exact
    = (Build_shr_record (Zpos q) false false, c).
Proof.
  intros H. unfold shr_fexp, shr. cbn [Zdigits2 shr_record_of_loc].
  destruct (fexp prec emax (Zpos (digits2_pos q) + c) - c) eqn:E;
    try reflexivity. lia.
Qed.

Lemma binary_round_aux_exact (sx : bool) (q : positive) (c : Z) :
  fexp prec emax (Zpos (digits2_pos q) + c) <= c ->
  binary_round_aux prec emax sx (Zpos q) c loc_Exact = fin sx q c.
Proof.
  intros H. unfold binary_round_aux.
  rewrite (shr_fexp_noop q c H).
  cbn [shr_m loc_of_shr_record round_nearest_even].
  rewrite (shr_fexp_noop q c H). reflexivity.
Qed.

Lemma binary_round_aux_shift (sx : bool) (q : positive) (e : Z) :
  let c := fexp prec emax (Zpos (digits2_pos q) + e) in
  e < c ->
  exists n, near (c - e) (Zpos q) n /\ n <= two53 /\
            binary_round_aux prec emax sx (Zpos q) e loc_Exact = carried sx n c.
Proof.
  intros c Hc. unfold binary_round_aux.
  unfold shr_fexp at 1. cbn [Zdigits2 shr_record_of_loc]. fold c.
  destruct (c - e) as [|pk|pk] eqn:Ek; try lia.
  unfold shr at 1. rewrite iter_pos_nat.
  pose proof (iter_shr_1_inv (Pos.to_nat pk) (Zpos q) ltac:(lia)) as Hinv.
  rewrite positive_nat_Z in Hinv.
  set (mrs := Nat.iter (Pos.to_nat pk) shr_1
               (Build_shr_record (Zpos q) false false)) in *.
  pose proof (round_near (Zpos pk) (Zpos q) mrs ltac:(lia) Hinv) as Hnear.
  set (n := round_nearest_even (shr_m mrs) (loc_of_shr_record mrs)) in *.
  replace (e + Zpos pk) with c by lia.
  assert (Hn53 : n <= two53).
  { apply (near_upper (Zpos pk) (Zpos q) n 53); try lia; [exact Hnear|].
    pose proof (digits2_pos_bounds q) as [_ Hq].
    eapply Z.lt_le_trans; [exact Hq|].
    apply Z.pow_le_mono_r; [lia|]. subst c.
    unfold fexp, SpecFloat.emin, prec, emax in *. lia. }
  exists n. split; [exact Hnear|]. split; [exact Hn53|].
  pose proof (fexp_ge_emin (Zpos (digits2_pos q) + e)) as Hemin. fold c in Hemin.
  destruct Hnear as (Hn0 & _).
  destruct n as [|p|p] eqn:En; [| |lia].
  - (* zero *)
    unfold shr_fexp, shr. cbn [Zdigits2 shr_record_of_loc].
    destruct (fexp prec emax (0 + c) - c) eqn:E2; try reflexivity.
    unfold fexp, SpecFloat.emin, prec, emax in *. lia.
  - unfold carried. destruct (Z.ltb_spec (Zpos p) two53) as [Hlt|Hge].
    + rewrite shr_fexp_noop; [reflexivity|].
      pose proof (digits2_pos_bounds p) as [Hlo _].
      assert (Zpos (digits2_pos p) - 1 < 53).
      { apply (Z.pow_lt_mono_r_iff 2); [lia|lia|]. unfold two53 in Hlt. lia. }
      unfold fexp, SpecFloat.emin, prec, emax in *. lia.
    + assert (Hp : p = 9007199254740992%positive).
      { unfold two53 in *. change (2 ^ 53) with 9007199254740992 in *. lia. }
      subst p.
      replace (shr_fexp prec emax 9007199254740992 c loc_Exact)
        with (Build_shr_record 4503599627370496 false false, c + 1).
      { reflexivity. }
      unfold shr_fexp, shr. cbn [Zdigits2 shr_record_of_loc].
      change (Zpos (digits2_pos 9007199254740992)) with 54.
      replace (fexp prec emax (54 + c) - c) with 1
        by (unfold fexp, SpecFloat.emin, prec, emax in *; lia).
      reflexivity.
Qed.

Lemma Zpos_iter_xO (d q : positive) :
  Zpos (Pos.iter xO q d) = Zpos q * 2 ^ Zpos d.
Proof.
  rewrite Pos2Nat.inj_iter, <- (positive_nat_Z d).
  induction (Pos.to_nat d) as [|k IH]; [simpl; lia|].
  cbn [nat_rect]. rewrite Pos2Z.inj_xO, IH, Nat2Z.inj_succ, Z.pow_succ_r by lia.
  ring.
Qed.

Lemma digits2_pos_iter_xO (d q : positive) :
  Zpos (digits2_pos (Pos.iter xO q d)) = Zpos (digits2_pos q) + Zpos d.
Proof.
  rewrite Pos2Nat.inj_iter, <- (positive_nat_Z d).
  induction (Pos.to_nat d) as [|k IH]; [simpl; lia|].
  cbn [nat_rect digits2_pos].
  rewrite Pos2Z.inj_succ, IH. lia.
Qed.

(** [binary_round] by cases on the canonical exponent [c] of the value:
    at or below the given exponent the mantissa is scaled exactly, above it
    the mantissa is shifted and rounded to nearest. *)
Lemma binary_round_cases (sx : bool) (q : positive) (e : Z) :
  let c := fexp prec emax (Zpos (digits2_pos q) + e) in
  (c <= e /\ exists mz, Zpos mz = Zpos q * 2 ^ (e - c) /\
                        binary_round prec emax sx q e = fin sx mz c) \/
  (e < c /\ exists n, near (c - e) (Zpos q) n /\ n <= two53 /\
                      binary_round prec emax sx q e = carried sx n c).
Proof.
  intros c. unfold binary_round, shl_align. fold c.
  destruct (c - e) as [|pk|pk] eqn:Ek.
  - left. split; [lia|]. exists q. replace (e - c) with 0 by lia.
    split; [simpl; lia|].
    replace c with e by lia. apply binary_round_aux_exact. lia.
  - right. split; [lia|]. rewrite <- Ek.
    apply (binary_round_aux_shift sx q e). fold c. lia.
  - left. split; [lia|]. exists (Pos.iter xO q pk).
    replace (e - c) with (Zpos pk) by lia.
    split; [apply Zpos_iter_xO|].
    apply binary_round_aux_exact. rewrite digits2_pos_iter_xO.
    replace (Zpos (digits2_pos q) + Zpos pk + c) with (Zpos (digits2_pos q) + e) by lia.
    fold c. lia.
Qed.

Lemma lex_lt_trans (a b c : Z * (Z * Z)) : lex_lt a b -> lex_lt b c -> lex_lt a c.
Proof. unfold lex_lt. destruct a as [? [? ?]], b as [? [? ?]], c as [? [? ?]]; simpl. lia. Qed.

Lemma lex_le_not_lt (a b : Z * (Z * Z)) : lex_le a b -> lex_lt b a -> False.
Proof.
  unfold lex_le, lex_lt. destruct a as [? [? ?]], b as [? [? ?]]; simpl.
  intros [H|H]; [lia|]. injection H as -> -> ->. lia.
Qed.

Lemma lex_le_neg3 (a b : Z * (Z * Z)) : lex_le a b -> lex_le (neg3 b) (neg3 a).
Proof.
  unfold lex_le, lex_lt, neg3. destruct a as [? [? ?]], b as [? [? ?]]; simpl.
  intros [H|H]; [left; lia|]. injection H as -> -> ->. right. reflexivity.
Qed.

Lemma lex_le_refl (a : Z * (Z * Z)) : lex_le a a.
Proof. right. reflexivity. Qed.

Lemma lex_le_trans (a b c : Z * (Z * Z)) : lex_le a b -> lex_le b c -> lex_le a c.
Proof.
  intros [H1 | ->] [H2 | ->]; [left; eapply lex_lt_trans; eauto | left; auto | left; auto | right; auto].
Qed.

Lemma SFcompare_Lt_rnk (f1 f2 : spec_float) :
  SFcompare f1 f2 = Some Lt ->
  lex_lt (rnk f1) (rnk f2) /\ f1 <> S754_nan /\ f2 <> S754_nan.
Proof.
  unfold lex_lt.
  destruct f1 as [s1|s1| |s1 m1 e1], f2 as [s2|s2| |s2 m2 e2];
    try destruct s1; try destruct s2; cbn [SFcompare rnk fst snd];
    try discriminate; intros H; (split; [|split; discriminate]); try lia.
  - destruct (Z.compare_spec e1 e2) as [He|He|He]; try discriminate; [|lia].
    right. split; [reflexivity|].
    rewrite Pos.compare_cont_spec in H. cbn in H.
    destruct (Pos.compare_spec m1 m2); simpl in H; try discriminate. lia.
  - destruct (Z.compare_spec e1 e2) as [He|He|He]; try discriminate; [|lia].
    right. split; [reflexivity|].
    rewrite Pos.compare_cont_spec in H. cbn in H.
    destruct (Pos.compare_spec m1 m2); simpl in H; try discriminate. lia.
Qed.

Lemma rnk_fin_le (m1 m2 : positive) (x1 x2 : Z) :
  x1 < x2 \/ (x1 = x2 /\ Zpos m1 <= Zpos m2) ->
  lex_le (rnk (fin false m1 x1)) (rnk (fin false m2 x2)).
Proof.
  intros H. unfold fin, lex_le, lex_lt.
  destruct (Z.leb_spec x1 (emax - prec)), (Z.leb_spec x2 (emax - prec));
    cbn [rnk fst snd]; try lia.
  - destruct H as [H|[-> H]]; [left; lia|].
    destruct (Z.eq_dec (Zpos m1) (Zpos m2)) as [E|E].
    + right. injection E as ->. reflexivity.
    + left. lia.
  - right. reflexivity.
Qed.

Lemma rnk_zero_le_fin (s : bool) (m : positive) (x : Z) :
  lex_le (rnk (S754_zero s)) (rnk (fin false m x)).
Proof.
  unfold fin, lex_le, lex_lt. destruct (x <=? emax - prec); cbn; lia.
Qed.

Lemma digits2_pos_mono (q1 q2 : positive) :
  Zpos q1 <= Zpos q2 -> Zpos (digits2_pos q1) <= Zpos (digits2_pos q2).
Proof.
  intros H.
  pose proof (digits2_pos_bounds q1) as [L1 _].
  pose proof (digits2_pos_bounds q2) as [_ U2].
  assert (Hlt : 2 ^ (Zpos (digits2_pos q1) - 1) < 2 ^ Zpos (digits2_pos q2)) by lia.
  apply Z.pow_lt_mono_r_iff in Hlt; lia.
Qed.

(** A rounded mantissa of a number in the normal range has 53 digits. *)
Lemma near_normal (q : positive) (e n : Z) :
  let c := fexp prec emax (Zpos (digits2_pos q) + e) in
  emin < c -> e < c -> near (c - e) (Zpos q) n -> 2 ^ 52 <= n.
Proof.
  intros c Hc He Hn.
  apply (near_lower (c - e) (Zpos q) n 52); try lia; [exact Hn|].
  pose proof (digits2_pos_bounds q) as [L _].
  replace (c - e + 52) with (Zpos (digits2_pos q) - 1); [exact L|].
  subst c. unfold fexp, SpecFloat.emin, prec, emax in *. lia.
Qed.

Lemma rnk_carried_cases (n c : Z) :
  0 <= n -> n <= two53 ->
  (n = 0 /\ rnk (carried false n c) = (0, (0, 0))) \/
  (exists p, n = Zpos p /\ n < two53 /\ carried false n c = fin false p c) \/
  (n = two53 /\ carried false n c = fin false 4503599627370496 (c + 1)).
Proof.
  intros H0 H53. destruct n as [|p|p]; [left; auto| |lia].
  right. unfold carried. destruct (Z.ltb_spec (Zpos p) two53).
  - left. eauto.
  - right. split; [lia|reflexivity].
Qed.

Lemma binary_round_pos_mono (e : Z) (q1 q2 : positive) :
  Zpos q1 <= Zpos q2 ->
  lex_le (rnk (binary_round prec emax false q1 e))
         (rnk (binary_round prec emax false q2 e)).
Proof.
  intros Hle.
  destruct (Z.eq_dec (Zpos q1) (Zpos q2)) as [E|Hne].
  { injection E as ->. apply lex_le_refl. }
  assert (Hlt : Zpos q1 < Zpos q2) by lia. clear Hle Hne.
  assert (H53 : two53 = 9007199254740992) by reflexivity.
  assert (H52' : 2 ^ 52 = 4503599627370496) by reflexivity.
  pose proof (digits2_pos_mono q1 q2 ltac:(lia)) as Hd.
  pose proof (fexp_ge_emin (Zpos (digits2_pos q1) + e)) as Hm1.
  pose proof (near_normal q2 e) as Hnorm2. cbv zeta in Hnorm2.
  assert (Hc : fexp prec emax (Zpos (digits2_pos q1) + e)
               <= fexp prec emax (Zpos (digits2_pos q2) + e))
    by (unfold fexp; lia).
  destruct (binary_round_cases false q1 e) as [(Hc1 & mz1 & Hz1 & ->)|(Hc1 & n1 & Hn1 & Hb1 & ->)];
  destruct (binary_round_cases false q2 e) as [(Hc2 & mz2 & Hz2 & ->)|(Hc2 & n2 & Hn2 & Hb2 & ->)].
  - (* both exact *)
    apply rnk_fin_le.
    destruct (Z.eq_dec (fexp prec emax (Zpos (digits2_pos q1) + e))
                       (fexp prec emax (Zpos (digits2_pos q2) + e))) as [E|E].
    + right. split; [exact E|]. rewrite Hz1, Hz2, E.
      apply Z.mul_le_mono_nonneg_r; [apply Z.pow_nonneg; lia | lia].
    + left. lia.
  - (* exact, then shifted *)
    pose proof (Hnorm2 n2 ltac:(lia) Hc2 Hn2) as H52.
    destruct (rnk_carried_cases n2 (fexp prec emax (Zpos (digits2_pos q2) + e))
                ltac:(lia) Hb2) as [[H _]|[(p & Hp & _ & ->)|[_ ->]]].
    + lia.
    + apply rnk_fin_le. left. lia.
    + apply rnk_fin_le. left. lia.
  - (* shifted, then exact: the exponents say no *)
    lia.
  - (* both shifted *)
    destruct Hn1 as (H10 & Hn1'). pose proof (conj H10 Hn1') as Hn1.
    destruct Hn2 as (H20 & Hn2'). pose proof (conj H20 Hn2') as Hn2.
    destruct (Z.eq_dec (fexp prec emax (Zpos (digits2_pos q1) + e))
                       (fexp prec emax (Zpos (digits2_pos q2) + e))) as [E|E].
    + rewrite <- E in *.
      assert (Hn12 : n1 <= n2).
      { apply (near_mono (fexp prec emax (Zpos (digits2_pos q1) + e) - e)
                 (Zpos q1) (Zpos q2) n1 n2); [lia | exact Hlt | exact Hn1 | exact Hn2]. }
      destruct (rnk_carried_cases n1 (fexp prec emax (Zpos (digits2_pos q1) + e))
                  H10 Hb1) as [[_ ->]|[(p1 & Hp1 & Hl1 & ->)|[He1 ->]]];
      destruct (rnk_carried_cases n2 (fexp prec emax (Zpos (digits2_pos q1) + e))
                  H20 Hb2) as [[Hz2 Hr2]|[(p2 & Hp2 & Hl2 & ->)|[He2 ->]]].
      all: try (exfalso; lia).
      * rewrite Hr2. apply lex_le_refl.
      * apply (rnk_zero_le_fin false).
      * apply (rnk_zero_le_fin false).
      * apply rnk_fin_le. right. split; [reflexivity|lia].
      * apply rnk_fin_le. left. lia.
      * apply lex_le_refl.
    + pose proof (Hnorm2 n2 ltac:(lia) Hc2 Hn2) as H52.
      destruct (rnk_carried_cases n1 (fexp prec emax (Zpos (digits2_pos q1) + e))
                  H10 Hb1) as [[_ ->]|[(p1 & Hp1 & Hl1 & ->)|[He1 ->]]];
      destruct (rnk_carried_cases n2 (fexp prec emax (Zpos (digits2_pos q2) + e))
                  H20 Hb2) as [[Hz2 Hr2]|[(p2 & Hp2 & Hl2 & ->)|[He2 ->]]].
      all: try (exfalso; lia).
      * apply (rnk_zero_le_fin false).
      * apply (rnk_zero_le_fin false).
      * apply rnk_fin_le. left. lia.
      * apply rnk_fin_le. left. lia.
      * apply rnk_fin_le.
        destruct (Z.eq_dec (fexp prec emax (Zpos (digits2_pos q1) + e) + 1)
                           (fexp prec emax (Zpos (digits2_pos q2) + e))) as [E1|E1].
        -- right. split; [exact E1|]. change (Zpos 4503599627370496) with (2 ^ 52). lia.
        -- left. lia.
      * apply rnk_fin_le. left. lia.
Qed.

(** The sign given to [binary_round] only signs its result. *)
Lemma rnk_fin_true (m : positive) (x : Z) :
  rnk (fin true m x) = neg3 (rnk (fin false m x)).
Proof. unfold fin. destruct (x <=? emax - prec); reflexivity. Qed.

Lemma rnk_carried_true (n c : Z) :
  rnk (carried true n c) = neg3 (rnk (carried false n c)).
Proof.
  unfold carried. destruct n as [|p|p]; try reflexivity.
  destruct (Zpos p <? two53); apply rnk_fin_true.
Qed.

Lemma binary_round_aux_sign (sx : bool) (m e : Z) (l : location) :
  rnk (binary_round_aux prec emax true m e l)
    = neg3 (rnk (binary_round_aux prec emax false m e l)).
Proof.
  unfold binary_round_aux.
  destruct (shr_fexp prec emax m e l) as [mrs' e'].
  destruct (shr_fexp prec emax _ e' loc_Exact) as [mrs'' e''].
  destruct (shr_m mrs'') as [|p|p]; try reflexivity.
  destruct (e'' <=? emax - prec); reflexivity.
Qed.

Lemma binary_round_sign (q : positive) (e : Z) :
  rnk (binary_round prec emax true q e)
    = neg3 (rnk (binary_round prec emax false q e)).
Proof.
  unfold binary_round.
  destruct (shl_align q e _) as [mz ez]. apply (binary_round_aux_sign true).
Qed.

Lemma rnk_round_nonneg (q : positive) (e : Z) :
  lex_le (0, (0, 0)) (rnk (binary_round prec emax false q e)).
Proof.
  destruct (binary_round_cases false q e) as [(_ & mz & _ & ->)|(_ & n & Hn & Hb & ->)].
  - apply (rnk_zero_le_fin false).
  - destruct Hn as (H0 & _).
    destruct (rnk_carried_cases n (fexp prec emax (Zpos (digits2_pos q) + e)) H0 Hb)
      as [[_ ->]|[(p & _ & _ & ->)|[_ ->]]].
    + apply lex_le_refl.
    + apply (rnk_zero_le_fin false).
    + apply (rnk_zero_le_fin false).
Qed.

(** [binary_normalize] is monotone in the integer it rounds. *)
Lemma binary_normalize_mono (e m1 m2 : Z) :
  m1 <= m2 ->
  lex_le (rnk (binary_normalize prec emax m1 e false))
         (rnk (binary_normalize prec emax m2 e false)).
Proof.
  intros H.
  destruct m1 as [|q1|q1], m2 as [|q2|q2]; cbn [binary_normalize]; try lia.
  - apply lex_le_refl.
  - apply rnk_round_nonneg.
  - apply binary_round_pos_mono. lia.
  - rewrite binary_round_sign.
    change (rnk (S754_zero false)) with (neg3 (0, (0, 0))).
    apply lex_le_neg3, rnk_round_nonneg.
  - rewrite binary_round_sign.
    eapply lex_le_trans; [|apply rnk_round_nonneg].
    change (0, (0, 0)) with (neg3 (0, (0, 0))).
    apply lex_le_neg3, rnk_round_nonneg.
  - rewrite !binary_round_sign. apply lex_le_neg3, binary_round_pos_mono. lia.
Qed.

Lemma SFsub_le_SFadd (a t : spec_float) :
  not_negative t ->
  SFadd prec emax a t <> S754_nan ->
  SFsub prec emax a t <> S754_nan ->
  lex_le (rnk (SFsub prec emax a t)) (rnk (SFadd prec emax a t)).
Proof.
  intros Ht Hu Hl.
  destruct t as [st|st| |st mt et]; cbn [not_negative] in Ht; try subst st.
  - (* t = +0 *)
    destruct a as [sa|sa| |sa ma ea]; try destruct sa; cbn; apply lex_le_refl.
  - (* t = +inf *)
    destruct a as [sa|sa| |sa ma ea]; try destruct sa; cbn in *;
      try congruence; left; unfold lex_lt; cbn; lia.
  - destruct a; cbn in Hu; congruence.
  - (* t finite *)
    destruct a as [sa|sa| |sa ma ea].
    + cbn. left. unfold lex_lt. cbn. lia.
    + destruct sa; cbn; apply lex_le_refl.
    + cbn in Hu. congruence.
    + cbn [SFadd SFsub]. apply binary_normalize_mono.
      cbn [cond_Zopp]. lia.
Qed.

(** Twice a positive float is not negative. *)
Lemma SFmul_2_not_negative (s : spec_float) :
  SFltb (S754_zero false) s = true ->
  not_negative (SFmul prec emax (S754_finite false 4503599627370496 (-51)) s).
Proof.
  unfold SFltb.
  destruct s as [ss|ss| |ss ms es]; cbn [SFcompare]; try discriminate.
  - destruct ss; [discriminate|]. intros _. reflexivity.
  - destruct ss; [discriminate|]. intros _.
    cbn [SFmul xorb]. unfold binary_round_aux.
    destruct (shr_fexp prec emax _ _ _) as [mrs' e'].
    destruct (shr_fexp prec emax _ e' loc_Exact) as [mrs'' e''].
    destruct (shr_m mrs'') as [|p|p]; try exact I; try reflexivity.
    destruct (e'' <=? emax - prec); reflexivity.
Qed.

(** A price strictly below [a - 2 s] is not strictly above [a + 2 s]
    when [s] is positive: rounding keeps the two bands in order. *)
Theorem bands_exclusive (a s p : float) :
  PrimFloat.ltb 0%float s = true ->
  PrimFloat.ltb p (PrimFloat.sub a (PrimFloat.mul 2%float s)) = true ->
  PrimFloat.ltb (PrimFloat.add a (PrimFloat.mul 2%float s)) p = false.
Proof.
  intros Hs Hlow.
  destruct (PrimFloat.ltb (PrimFloat.add a (PrimFloat.mul 2%float s)) p) eqn:Hup;
    [exfalso|reflexivity].
  rewrite FloatAxioms.ltb_spec in Hs, Hlow, Hup.
  rewrite FloatAxioms.sub_spec in Hlow. rewrite FloatAxioms.add_spec in Hup.
  rewrite FloatAxioms.mul_spec in Hlow, Hup.
  change (Prim2SF 0%float) with (S754_zero false) in Hs.
  change (Prim2SF 2%float) with (S754_finite false 4503599627370496 (-51)) in Hlow, Hup.
  pose proof (SFmul_2_not_negative _ Hs) as Ht.
  set (t := SF64mul _ _) in *.
  unfold SFltb in Hlow, Hup.
  destruct (SFcompare (Prim2SF p) _) as [[]|] eqn:C1 in Hlow; try discriminate.
  destruct (SFcompare _ (Prim2SF p)) as [[]|] eqn:C2 in Hup; try discriminate.
  apply SFcompare_Lt_rnk in C1 as (L1 & _ & N1).
  apply SFcompare_Lt_rnk in C2 as (L2 & N2 & _).
  apply (lex_le_not_lt _ _ (SFsub_le_SFadd (Prim2SF a) t Ht N2 N1)).
  eapply lex_lt_trans; eassumption.
Qed.

(** *** The nearest float of a positive int is not zero *)

Lemma float_of_int_nonzero (n : Z) :
  0 < n < 2 ^ 63 -> PrimFloat.eqb (float_of_int n) 0%float = false.
Proof.
  intros Hn. unfold float_of_int.
  rewrite FloatAxioms.eqb_spec, FloatAxioms.of_uint63_spec, Uint63.of_Z_spec.
  rewrite Z.mod_small by (change wB with (2 ^ 63); lia).
  change (Prim2SF 0%float) with (S754_zero false).
  destruct n as [|q|q]; try lia.
  cbn [binary_normalize].
  assert (Hfin : forall m x, SFeqb (fin false m x) (S754_zero false) = false).
  { intros m x. unfold fin. destruct (x <=? emax - prec); reflexivity. }
  destruct (binary_round_cases false q 0)
    as [(_ & mz & _ & ->)|(Hc & n & Hnear & Hb & ->)]; [apply Hfin|].
  assert (H52 : 2 ^ 52 <= n).
  { apply (near_normal q 0 n); [|exact Hc|exact Hnear].
    unfold SpecFloat.emin, prec, emax in *. lia. }
  assert (0 < 2 ^ 52) by (apply Z.pow_pos_nonneg; lia).
  unfold carried. destruct n as [|p|p]; try lia.
  destruct (Zpos p <? two53); apply Hfin.
Qed.

(** [x / n] for an int [n] that is a list length: the zero test on the
    int is the zero test on the converted float. *)
Lemma truediv_int_as_truediv (x : float) (n : Z) :
  0 <= n < 2 ^ 63 -> truediv_int x n = truediv x (float_of_int n).
Proof.
  intros Hn. unfold truediv_int, truediv.
  destruct (Z.eqb_spec n 0) as [->|Hne]; [reflexivity|].
  rewrite float_of_int_nonzero by lia. reflexivity.
Qed.

End FloatFacts.

(** ** One call of on_market_data *)

Lemma position_insert (p : gmap string Z) (self : LocoHFTStrategy)
    (symbol : string) (v : Z) :
  position (set_positions self (<[symbol := v]> p)) symbol = v.
Proof. unfold position. simpl. rewrite lookup_insert_eq. reflexivity. Qed.

Lemma position_after_insert (self after : LocoHFTStrategy) (symbol sym : string) (v : Z) :
  positions after = <[symbol := v]> (positions self) ->
  position after sym = if decide (symbol = sym) then v else position self sym.
Proof.
  intros H. unfold position. rewrite H.
  destruct (decide (symbol = sym)) as [->|Hne].
  - rewrite lookup_insert_eq. reflexivity.
  - rewrite lookup_insert_ne by assumption. reflexivity.
Qed.

Section Rule.

Variable self : LocoHFTStrategy.
Variable symbol : string.
Variable price : float.
Variable b : Bands.

Lemma signal_of_positive_std (act : string) :
  PrimFloat.ltb 0%float (std b) = true ->
  signal_of act price b = Ok (expected_signal act price b).
Proof.
  intros H. unfold signal_of, truediv.
  rewrite (positive_not_zero _ H). reflexivity.
Qed.

Lemma signal_of_zero_std (act : string) :
  PrimFloat.eqb (std b) 0%float = true ->
  signal_of act price b = Raise ZeroDivisionError.
Proof.
  intros H. unfold signal_of, truediv. rewrite H. reflexivity.
Qed.

Lemma mean_reversion_positive_std :
  PrimFloat.ltb 0%float (std b) = true ->
  mean_reversion self symbol price b =
    let pos := position self symbol in
    if PrimFloat.ltb price (lower b) && (pos <=? 0) then
      (set_positions self (<[symbol := pos + 100]> (positions self)),
       Emitted (expected_signal "BUY" price b))
    else if PrimFloat.ltb (upper b) price && (0 <=? pos) then
      (set_positions self (<[symbol := pos - 100]> (positions self)),
       Emitted (expected_signal "SELL" price b))
    else (self, NoSignal).
Proof.
  intros Hstd. unfold mean_reversion.
  rewrite !(signal_of_positive_std _ Hstd). reflexivity.
Qed.

(** With a zero standard deviation the rule never emits a signal and never
    touches the object, but it has no guard of its own: every branch that
    would emit divides by the standard deviation first and raises. *)
Lemma mean_reversion_zero_std :
  PrimFloat.eqb (std b) 0%float = true ->
  mean_reversion self symbol price b =
    let pos := position self symbol in
    if (PrimFloat.ltb price (lower b) && (pos <=? 0))
       || (PrimFloat.ltb (upper b) price && (0 <=? pos))
    then (self, Raised ZeroDivisionError)
    else (self, NoSignal).
Proof.
  intros Hz. unfold mean_reversion.
  rewrite !(signal_of_zero_std _ Hz).
  destruct (PrimFloat.ltb price (lower b) && (position self symbol <=? 0));
    [reflexivity|].
  destruct (PrimFloat.ltb (upper b) price && (0 <=? position self symbol));
    reflexivity.
Qed.

Lemma mean_reversion_fields :
  let r := mean_reversion self symbol price b in
  price_history (fst r) = price_history self /\
  lookback (fst r) = lookback self /\
  capital (fst r) = capital self /\
  snd r <> Insufficient.
Proof.
  unfold mean_reversion.
  destruct (PrimFloat.ltb price (lower b) && (position self symbol <=? 0)).
  { destruct (signal_of "BUY" price b); simpl; auto. }
  destruct (PrimFloat.ltb (upper b) price && (0 <=? position self symbol)).
  { destruct (signal_of "SELL" price b); simpl; auto. }
  simpl; auto.
Qed.

(** The ledger after the rule: untouched, or the symbol's entry moved by
    one lot in the direction its sign allows. *)
Lemma mean_reversion_positions :
  let pos := position self symbol in
  let p' := positions (fst (mean_reversion self symbol price b)) in
  p' = positions self \/
  (pos <= 0 /\ p' = <[symbol := pos + 100]> (positions self)) \/
  (0 <= pos /\ p' = <[symbol := pos - 100]> (positions self)).
Proof.
  unfold mean_reversion.
  destruct (PrimFloat.ltb price (lower b)); simpl.
  - destruct (Z.leb_spec (position self symbol) 0); simpl.
    + destruct (signal_of "BUY" price b); simpl; auto.
    + destruct (PrimFloat.ltb (upper b) price); simpl; auto.
      destruct (Z.leb_spec 0 (position self symbol)); simpl; auto.
      destruct (signal_of "SELL" price b); simpl; auto.
  - destruct (PrimFloat.ltb (upper b) price); simpl; auto.
    destruct (Z.leb_spec 0 (position self symbol)); simpl; auto.
    destruct (signal_of "SELL" price b); simpl; auto.
Qed.

End Rule.

Section OneCall.

Variable self : LocoHFTStrategy.
Variable symbol : string.
Variables price volume : float.
Variable timestamp : Z.

Lemma on_market_data_unfold :
  on_market_data self symbol price volume timestamp =
    if len (prices_at_37 self symbol price) <? lookback self
    then (self_at_37 self symbol price, Insufficient)
    else
      match bollinger (prices_at_37 self symbol price) with
      | Raise e => (self_at_37 self symbol price, Raised e)
      | Ok b => mean_reversion (self_at_37 self symbol price) symbol price b
      end.
Proof. reflexivity. Qed.

Lemma on_market_data_insufficient :
  len (prices_at_37 self symbol price) < lookback self ->
  on_market_data self symbol price volume timestamp
    = (self_at_37 self symbol price, Insufficient).
Proof.
  intros H. rewrite on_market_data_unfold.
  apply Z.ltb_lt in H. rewrite H. reflexivity.
Qed.

Lemma on_market_data_full :
  lookback self <= len (prices_at_37 self symbol price) ->
  on_market_data self symbol price volume timestamp =
    match bollinger (prices_at_37 self symbol price) with
    | Raise e => (self_at_37 self symbol price, Raised e)
    | Ok b => mean_reversion (self_at_37 self symbol price) symbol price b
    end.
Proof.
  intros H. rewrite on_market_data_unfold.
  apply Z.ltb_ge in H. rewrite H. reflexivity.
Qed.

Lemma on_market_data_fields :
  let after := fst (on_market_data self symbol price volume timestamp) in
  price_history after
    = <[symbol := prices_at_37 self symbol price]> (price_history self) /\
  lookback after = lookback self /\
  capital after = capital self.
Proof.
  rewrite on_market_data_unfold.
  destruct (len (prices_at_37 self symbol price) <? lookback self); [simpl; auto|].
  destruct (bollinger (prices_at_37 self symbol price)) as [b|e]; [|simpl; auto].
  destruct (mean_reversion_fields (self_at_37 self symbol price) symbol price b)
    as (H1 & H2 & H3 & _).
  cbv zeta. rewrite H1, H2, H3. simpl; auto.
Qed.

Lemma on_market_data_insufficient_iff :
  snd (on_market_data self symbol price volume timestamp) = Insufficient
  <-> len (prices_at_37 self symbol price) < lookback self.
Proof.
  rewrite on_market_data_unfold.
  destruct (Z.ltb_spec (len (prices_at_37 self symbol price)) (lookback self)) as [H|H].
  - simpl. tauto.
  - split; [|lia].
    destruct (bollinger (prices_at_37 self symbol price)) as [b|e]; [|discriminate].
    intros Ho.
    destruct (mean_reversion_fields (self_at_37 self symbol price) symbol price b)
      as (_ & _ & _ & Hne).
    contradiction.
Qed.

Lemma on_market_data_positions :
  let pos := position self symbol in
  let p' := positions (fst (on_market_data self symbol price volume timestamp)) in
  p' = positions self \/
  (pos <= 0 /\ p' = <[symbol := pos + 100]> (positions self)) \/
  (0 <= pos /\ p' = <[symbol := pos - 100]> (positions self)).
Proof.
  rewrite on_market_data_unfold.
  destruct (len (prices_at_37 self symbol price) <? lookback self); [simpl; auto|].
  destruct (bollinger (prices_at_37 self symbol price)) as [b|e]; [|simpl; auto].
  exact (mean_reversion_positions (self_at_37 self symbol price) symbol price b).
Qed.

Lemma on_market_data_window (sym : string) :
  window (fst (on_market_data self symbol price volume timestamp)) sym =
    if decide (symbol = sym) then prices_at_37 self symbol price
    else window self sym.
Proof.
  unfold window. destruct on_market_data_fields as (-> & _).
  destruct (decide (symbol = sym)) as [->|Hne].
  - rewrite lookup_insert_eq. reflexivity.
  - rewrite lookup_insert_ne by assumption. reflexivity.
Qed.

End OneCall.

(** C1: on a full window with a positive standard deviation, a price
    strictly below the lower band with position <= 0 returns a BUY of
    size 100 at the tick price with confidence 0.8 and metadata mean and
    z-score, and the position goes up by 100; otherwise a price strictly
    above the upper band with position >= 0 returns the same as a SELL and
    the position goes down by 100; otherwise nothing is returned and the
    positions are as before. *)
Theorem on_market_data_transition
    (self : LocoHFTStrategy) (symbol : string) (price volume : float)
    (timestamp : Z) (b : Bands) :
  lookback self <= len (prices_at_37 self symbol price) ->
  bollinger (prices_at_37 self symbol price) = Ok b ->
  PrimFloat.ltb 0%float (std b) = true ->
  let pos := position self symbol in
  let buy := PrimFloat.ltb price (lower b) = true /\ pos <= 0 in
  let sell := PrimFloat.ltb (upper b) price = true /\ 0 <= pos in
  let self' := fst (on_market_data self symbol price volume timestamp) in
  let o := snd (on_market_data self symbol price volume timestamp) in
  (buy ->
     o = Emitted (mkSignal "BUY" 100%float price 0.8%float
                    [("sma"%string, sma b);
                     ("z_score"%string,
                      PrimFloat.div (PrimFloat.sub price (sma b)) (std b))]) /\
     returned o = Ok (Some (expected_signal "BUY" price b)) /\
     positions self' = <[symbol := pos + 100]> (positions self) /\
     position self' symbol = pos + 100) /\
  (~ buy -> sell ->
     o = Emitted (mkSignal "SELL" 100%float price 0.8%float
                    [("sma"%string, sma b);
                     ("z_score"%string,
                      PrimFloat.div (PrimFloat.sub price (sma b)) (std b))]) /\
     returned o = Ok (Some (expected_signal "SELL" price b)) /\
     positions self' = <[symbol := pos - 100]> (positions self) /\
     position self' symbol = pos - 100) /\
  (~ buy -> ~ sell ->
     o = NoSignal /\ returned o = Ok None /\
     positions self' = positions self).
Proof.
  intros Hfull Hb Hstd pos buy sell self' o.
  subst self' o. rewrite (on_market_data_full _ _ _ _ _ Hfull), Hb.
  rewrite (mean_reversion_positive_std _ _ _ _ Hstd).
  change (position (self_at_37 self symbol price) symbol) with pos.
  cbv zeta.
  destruct (PrimFloat.ltb price (lower b)) eqn:Hlo;
    destruct (Z.leb_spec pos 0) as [Hle|Hgt]; simpl.
  1: { split; [|split]; [| intros Hn; exfalso; apply Hn; split; [reflexivity|lia] ..].
       intros _. rewrite position_insert. auto. }
  all: assert (Hnb : ~ buy) by (intros [Hb1 Hb2]; first [discriminate | lia]).
  all: split; [intros Hbuy; exfalso; exact (Hnb Hbuy)|].
  all: destruct (PrimFloat.ltb (upper b) price) eqn:Hup;
    destruct (Z.leb_spec 0 pos) as [Hge|Hlt]; simpl.
  all: try (split;
         [ intros _ _; rewrite position_insert; auto
         | intros _ Hs; exfalso; apply Hs; split; [reflexivity|lia] ]).
  all: split; [intros _ [Hs1 Hs2]; exfalso; first [discriminate | lia]|].
  all: intros _ _; auto.
Qed.

Lemma on_market_data_transition_witness :
  returned (snd (on_market_data warm "X" 50%float 1%float 19))
    = Ok (Some (expected_signal "BUY" 50%float
                  (mkBands 97.5%float 118.75%float
                     (PrimFloat.sqrt 118.75%float)
                     (PrimFloat.add 97.5%float
                        (PrimFloat.mul 2%float (PrimFloat.sqrt 118.75%float)))
                     (PrimFloat.sub 97.5%float
                        (PrimFloat.mul 2%float (PrimFloat.sqrt 118.75%float)))))) /\
  position (fst (on_market_data warm "X" 50%float 1%float 19)) "X" = 100.
Proof.
  pose proof (on_market_data_transition warm "X" 50%float 1%float 19
    (mkBands 97.5%float 118.75%float
       (PrimFloat.sqrt 118.75%float)
       (PrimFloat.add 97.5%float (PrimFloat.mul 2%float (PrimFloat.sqrt 118.75%float)))
       (PrimFloat.sub 97.5%float (PrimFloat.mul 2%float (PrimFloat.sqrt 118.75%float)))))
    as H.
  cbv zeta in H.
  destruct H as [Hbuy _].
  - vm_compute. discriminate.
  - vm_compute. reflexivity.
  - vm_compute. reflexivity.
  - destruct Hbuy as (_ & H1 & _ & H3).
    + split; [vm_compute; reflexivity | vm_compute; discriminate].
    + split; [exact H1 | exact H3].
Defined.

(** ** The band statistics *)

Lemma pow2_ok (x r : float) : pow2 x = Ok r -> r = PrimFloat.mul x x.
Proof.
  unfold pow2.
  destruct (PrimFloat.is_finite x && PrimFloat.is_infinity (PrimFloat.mul x x));
    congruence.
Qed.

Lemma math_sqrt_ok (x r : float) : math_sqrt x = Ok r -> r = PrimFloat.sqrt x.
Proof.
  unfold math_sqrt.
  destruct (PrimFloat.is_nan (PrimFloat.sqrt x) && negb (PrimFloat.is_nan x));
    congruence.
Qed.

Lemma truediv_int_ok (x r : float) (n : Z) :
  truediv_int x n = Ok r -> n <> 0 /\ r = PrimFloat.div x (float_of_int n).
Proof.
  unfold truediv_int. destruct (Z.eqb_spec n 0); [discriminate|].
  intros [= <-]. auto.
Qed.

(** The generator's sum, when no square overflows, is the left-to-right
    sum of the squared deviations. *)
Lemma sum_sq_dev_ok (m : float) (w : list float) :
  forall acc ss,
    sum_sq_dev m acc w = Ok ss ->
    ss = fold_left PrimFloat.add (map (squared_deviation m) w) acc.
Proof.
  induction w as [|p w IH]; intros acc ss; simpl.
  - congruence.
  - destruct (pow2 (PrimFloat.sub p m)) as [sq|e] eqn:Hsq; simpl; [|discriminate].
    apply pow2_ok in Hsq. subst sq. apply IH.
Qed.

Lemma bind_ok {A B : Type} (r : result A) (k : A -> result B) (b : B) :
  Py.bind r k = Ok b -> exists a, r = Ok a /\ k a = Ok b.
Proof. destruct r as [a|e]; simpl; [eauto | discriminate]. Qed.

(** C2: when the statistics of a window of N prices are computed, the
    mean is the arithmetic mean of the N prices, the variance is the
    population variance (divided by N, not N - 1), the standard deviation
    is the square root of the variance, and the bands are the mean plus
    and minus twice the standard deviation. *)
Theorem bollinger_statistics (N : Z) (w : list float) (b : Bands) :
  len w = N ->
  bollinger w = Ok b ->
  sma b = PrimFloat.div (Py.sum w) (float_of_int N) /\
  sma b = arithmetic_mean w /\
  variance b =
    PrimFloat.div (Py.sum (map (squared_deviation (sma b)) w)) (float_of_int N) /\
  variance b = population_variance w /\
  std b = PrimFloat.sqrt (variance b) /\
  upper b = PrimFloat.add (sma b) (PrimFloat.mul 2%float (std b)) /\
  lower b = PrimFloat.sub (sma b) (PrimFloat.mul 2%float (std b)).
Proof.
  intros HN Hb. unfold bollinger in Hb.
  apply bind_ok in Hb as (m & Hm & Hb).
  apply bind_ok in Hb as (ss & Hss & Hb).
  apply bind_ok in Hb as (v & Hv & Hb).
  apply bind_ok in Hb as (s & Hs & Hb).
  injection Hb as <-. simpl.
  apply truediv_int_ok in Hm as [_ ->].
  apply truediv_int_ok in Hv as [_ ->].
  apply sum_sq_dev_ok in Hss as ->.
  apply math_sqrt_ok in Hs as ->.
  unfold population_variance, arithmetic_mean, Py.sum. rewrite HN.
  repeat split; reflexivity.
Qed.

Lemma bollinger_statistics_witness :
  bollinger [100; 102; 98]%float
    = Ok (mkBands 100%float (PrimFloat.div 8%float 3%float)
            (PrimFloat.sqrt (PrimFloat.div 8%float 3%float))
            (PrimFloat.add 100%float
               (PrimFloat.mul 2%float (PrimFloat.sqrt (PrimFloat.div 8%float 3%float))))
            (PrimFloat.sub 100%float
               (PrimFloat.mul 2%float (PrimFloat.sqrt (PrimFloat.div 8%float 3%float))))) /\
  population_variance [100; 102; 98]%float = PrimFloat.div 8%float 3%float.
Proof.
  assert (Hb : bollinger [100; 102; 98]%float
    = Ok (mkBands 100%float (PrimFloat.div 8%float 3%float)
            (PrimFloat.sqrt (PrimFloat.div 8%float 3%float))
            (PrimFloat.add 100%float
               (PrimFloat.mul 2%float (PrimFloat.sqrt (PrimFloat.div 8%float 3%float))))
            (PrimFloat.sub 100%float
               (PrimFloat.mul 2%float (PrimFloat.sqrt (PrimFloat.div 8%float 3%float))))))
    by (vm_compute; reflexivity).
  split; [exact Hb|].
  destruct (bollinger_statistics 3 [100; 102; 98]%float _ eq_refl Hb)
    as (_ & _ & _ & Hv & _).
  symmetry. exact Hv.
Defined.

(** ** Tick streams: the window *)

Lemma length_last_n {A : Type} (n : nat) (l : list A) :
  length (last_n n l) = Nat.min (length l) n.
Proof. unfold last_n. rewrite length_drop. lia. Qed.

Lemma tail_drop {A : Type} (n : nat) : forall l : list A,
  tail (drop n l) = drop (S n) l.
Proof. induction n as [|n IH]; intros [|x l]; simpl; auto. Qed.

(** Appending to the last [L] and evicting the oldest on overflow keeps
    the last [L]. *)
Lemma push_price_last_n (L : Z) (ps : list float) (p : float) :
  0 <= L ->
  push_price L (last_n (Z.to_nat L) ps) p = last_n (Z.to_nat L) (ps ++ [p]).
Proof.
  intros HL. unfold push_price, last_n, len.
  rewrite !length_app, length_drop. simpl.
  destruct (Nat.le_gt_cases (Z.to_nat L) (length ps)) as [Hge|Hlt].
  - replace (L <? _) with true by (symmetry; apply Z.ltb_lt; lia).
    replace (length ps + 1 - Z.to_nat L)%nat with (S (length ps - Z.to_nat L)) by lia.
    rewrite <- (drop_app_le ps [p]) by lia.
    apply tail_drop.
  - replace (L <? _) with false by (symmetry; apply Z.ltb_ge; lia).
    replace (length ps - Z.to_nat L)%nat with 0%nat by lia.
    replace (length ps + 1 - Z.to_nat L)%nat with 0%nat by lia.
    reflexivity.
Qed.

Lemma prices_of_snoc (sym : string) (seen : list PriceTick) (t : PriceTick) :
  prices_of sym (seen ++ [t]) =
    if decide (tick_symbol t = sym) then prices_of sym seen ++ [tick_price t]
    else prices_of sym seen.
Proof.
  unfold prices_of. rewrite filter_app, map_app.
  rewrite filter_cons, filter_nil.
  destruct (decide (tick_symbol t = sym)); simpl; [reflexivity|].
  apply app_nil_r.
Qed.

Lemma feed_tracks (L : Z) (self : LocoHFTStrategy) (seen : list PriceTick)
    (t : PriceTick) :
  0 <= L -> tracks L self seen -> tracks L (fst (feed self t)) (seen ++ [t]).
Proof.
  intros HL [Hlb Hw]. unfold feed. split.
  - destruct (on_market_data_fields self (tick_symbol t) (tick_price t)
                (tick_volume t) (tick_timestamp t))
      as (_ & -> & _). exact Hlb.
  - intros sym. rewrite on_market_data_window, prices_of_snoc.
    destruct (decide (tick_symbol t = sym)) as [Heq|Hne]; [|apply Hw].
    unfold prices_at_37. rewrite Hlb, Hw, Heq. apply push_price_last_n, HL.
Qed.

Lemma run_cons (self : LocoHFTStrategy) (t : PriceTick) (rest : list PriceTick) :
  run self (t :: rest) =
    (fst (run (fst (feed self t)) rest),
     snd (feed self t) :: snd (run (fst (feed self t)) rest)).
Proof.
  simpl. destruct (feed self t) as [s1 o1]. simpl.
  destruct (run s1 rest) as [s2 os]. reflexivity.
Qed.

Lemma run_app (self : LocoHFTStrategy) (a b : list PriceTick) :
  run self (a ++ b) =
    (fst (run (fst (run self a)) b),
     snd (run self a) ++ snd (run (fst (run self a)) b)).
Proof.
  revert self. induction a as [|t a IH]; intros self.
  - simpl. destruct (run self b); reflexivity.
  - rewrite <- app_comm_cons, !run_cons, IH. reflexivity.
Qed.

Lemma length_run (self : LocoHFTStrategy) (ticks : list PriceTick) :
  length (snd (run self ticks)) = length ticks.
Proof.
  revert self. induction ticks as [|t ticks IH]; intros self; [reflexivity|].
  rewrite run_cons. simpl. rewrite IH. reflexivity.
Qed.

Lemma run_tracks (L : Z) (ticks : list PriceTick) :
  0 <= L ->
  forall self seen,
    tracks L self seen -> tracks L (fst (run self ticks)) (seen ++ ticks).
Proof.
  intros HL. induction ticks as [|t ticks IH]; intros self seen H.
  - simpl. rewrite app_nil_r. exact H.
  - rewrite run_cons. simpl.
    replace (seen ++ t :: ticks) with ((seen ++ [t]) ++ ticks)
      by (rewrite <- app_assoc; reflexivity).
    apply IH, feed_tracks; assumption.
Qed.

Lemma init_tracks (capital : float) : tracks 20 (__init__ capital) [].
Proof. split; [reflexivity|]. intros sym. reflexivity. Qed.

(** C5: from a fresh engine, after any ticks, every symbol's window is the
    last min(ticks seen, lookback) prices of that symbol in arrival order
    (so the oldest price is the one evicted), and never longer than the
    lookback. *)
Theorem window_is_last_lookback_prices
    (capital : float) (ticks : list PriceTick) (sym : string) :
  let self := fst (run (__init__ capital) ticks) in
  let seen := prices_of sym ticks in
  lookback self = 20 /\
  len (window self sym) <= lookback self /\
  length (window self sym) = Nat.min (length seen) (Z.to_nat (lookback self)) /\
  window self sym = drop (length seen - Z.to_nat (lookback self)) seen.
Proof.
  intros self seen.
  destruct (run_tracks 20 ticks ltac:(lia) _ _ (init_tracks capital)) as [Hlb Hw].
  simpl in Hw. fold self in Hlb, Hw. specialize (Hw sym). fold seen in Hw.
  rewrite Hlb, Hw. unfold len. rewrite length_last_n.
  repeat split; lia.
Qed.

(** ** Tick streams: the warm-up *)

Lemma run_outcome_at (self : LocoHFTStrategy) (ticks : list PriceTick)
    (i : nat) (t : PriceTick) :
  ticks !! i = Some t ->
  snd (run self ticks) !! i = Some (snd (feed (fst (run self (take i ticks))) t)).
Proof.
  intros Hi.
  rewrite <- (take_drop_middle ticks i t Hi) at 1.
  rewrite run_app, run_cons. simpl.
  rewrite lookup_app_r by (rewrite length_run, length_take; lia).
  rewrite length_run, length_take.
  apply lookup_lt_Some in Hi.
  replace (i - i `min` length ticks)%nat with 0%nat by lia.
  reflexivity.
Qed.

Lemma run_state_at (self : LocoHFTStrategy) (ticks : list PriceTick)
    (i : nat) (t : PriceTick) :
  ticks !! i = Some t ->
  fst (run self (take (S i) ticks)) = fst (feed (fst (run self (take i ticks))) t).
Proof.
  intros Hi. rewrite (take_S_r _ _ _ Hi), run_app. simpl.
  destruct (feed (fst (run self (take i ticks))) t); reflexivity.
Qed.

(** C3: from a fresh engine, the call for a tick returns the
    insufficient-history outcome (nothing computed, None returned)
    whenever fewer than lookback - 1 earlier ticks had its symbol, whatever
    the prices; it stops doing so exactly when the symbol's window reaches
    the lookback, so the call after lookback ticks (and the lookback-th
    itself) is past the insufficient-history return. *)
Theorem insufficient_until_lookback
    (capital : float) (ticks : list PriceTick) (i : nat) (t : PriceTick) :
  ticks !! i = Some t ->
  let earlier := length (prices_of (tick_symbol t) (take i ticks)) in
  let after := fst (run (__init__ capital) (take (S i) ticks)) in
  exists o,
    snd (run (__init__ capital) ticks) !! i = Some o /\
    ((S earlier < 20)%nat -> o = Insufficient /\ returned o = Ok None) /\
    ((20 <= S earlier)%nat -> o <> Insufficient) /\
    (o = Insufficient <-> len (window after (tick_symbol t)) < lookback after) /\
    length (window after (tick_symbol t)) = Nat.min (S earlier) 20.
Proof.
  intros Hi earlier after.
  exists (snd (feed (fst (run (__init__ capital) (take i ticks))) t)).
  split; [apply run_outcome_at, Hi|].
  destruct (run_tracks 20 (take i ticks) ltac:(lia) _ _ (init_tracks capital))
    as [Hlb Hw].
  simpl in Hw.
  destruct (run_tracks 20 (take (S i) ticks) ltac:(lia) _ _ (init_tracks capital))
    as [Hlb' Hw'].
  simpl in Hw'. fold after in Hlb', Hw'.
  assert (Hlen : length (window after (tick_symbol t)) = Nat.min (S earlier) 20).
  { rewrite Hw', (take_S_r _ _ _ Hi), prices_of_snoc.
    rewrite decide_True by reflexivity.
    rewrite length_last_n, length_app. simpl. subst earlier. lia. }
  assert (Hat : window after (tick_symbol t)
                = prices_at_37 (fst (run (__init__ capital) (take i ticks)))
                    (tick_symbol t) (tick_price t)).
  { subst after. rewrite (run_state_at _ _ _ _ Hi). unfold feed.
    rewrite on_market_data_window. rewrite decide_True by reflexivity.
    reflexivity. }
  assert (Hiff : snd (feed (fst (run (__init__ capital) (take i ticks))) t) = Insufficient
                 <-> len (window after (tick_symbol t)) < lookback after).
  { unfold feed. rewrite on_market_data_insufficient_iff, Hat, Hlb, Hlb'.
    reflexivity. }
  assert (Hlt : len (window after (tick_symbol t)) < lookback after
                <-> (S earlier < 20)%nat).
  { rewrite Hlb'. unfold len. rewrite Hlen. lia. }
  split; [|split; [|split]].
  - intros Hearly. apply Hlt, Hiff in Hearly. rewrite Hearly. auto.
  - intros Hlate Ho. apply Hiff, Hlt in Ho. lia.
  - exact Hiff.
  - exact Hlen.
Qed.

Lemma insufficient_until_lookback_witness :
  exists o,
    snd (run strategy warmup_ticks) !! 5%nat = Some o /\ o = Insufficient.
Proof.
  destruct (insufficient_until_lookback default_capital warmup_ticks 5
              (mkTick "X" 100%float 1%float 5) eq_refl)
    as (o & Ho & Hearly & _).
  exists o. split; [exact Ho|].
  apply Hearly. vm_compute. lia.
Defined.

(** ** Tick streams: the ledger *)

Lemma feed_one_lot (self : LocoHFTStrategy) (t : PriceTick) :
  one_lot self -> one_lot (fst (feed self t)).
Proof.
  intros H sym. unfold feed.
  destruct (on_market_data_positions self (tick_symbol t) (tick_price t)
              (tick_volume t) (tick_timestamp t))
    as [Hsame | [[Hle Hbuy] | [Hge Hsell]]].
  - unfold position. rewrite Hsame. apply H.
  - rewrite (position_after_insert _ _ _ sym _ Hbuy).
    destruct (decide (tick_symbol t = sym)); [|apply H].
    destruct (H (tick_symbol t)) as [Hp | [Hp | Hp]]; lia.
  - rewrite (position_after_insert _ _ _ sym _ Hsell).
    destruct (decide (tick_symbol t = sym)); [|apply H].
    destruct (H (tick_symbol t)) as [Hp | [Hp | Hp]]; lia.
Qed.

Lemma run_one_lot (ticks : list PriceTick) :
  forall self, one_lot self -> one_lot (fst (run self ticks)).
Proof.
  induction ticks as [|t ticks IH]; intros self H; [exact H|].
  rewrite run_cons. simpl. apply IH, feed_one_lot, H.
Qed.

Lemma init_one_lot (capital : float) : one_lot (__init__ capital).
Proof. intros sym. right; left. reflexivity. Qed.

(** C10: from a fresh engine, after any ticks, every symbol's position
    is -100, 0 or 100, so its magnitude never exceeds 100. *)
Theorem position_is_one_lot
    (capital : float) (ticks : list PriceTick) (sym : string) :
  let pos := position (fst (run (__init__ capital) ticks)) sym in
  (pos = -100 \/ pos = 0 \/ pos = 100) /\ Z.abs pos <= 100.
Proof.
  intros pos.
  assert (H : pos = -100 \/ pos = 0 \/ pos = 100)
    by apply (run_one_lot ticks _ (init_one_lot capital) sym).
  split; [exact H | lia].
Qed.

(** ** A long position and a price below the lower band *)

(** The bands as [bollinger] builds them. *)
Lemma bollinger_bands (w : list float) (b : Bands) :
  bollinger w = Ok b ->
  upper b = PrimFloat.add (sma b) (PrimFloat.mul 2%float (std b)) /\
  lower b = PrimFloat.sub (sma b) (PrimFloat.mul 2%float (std b)).
Proof.
  intros Hb. unfold bollinger in Hb.
  apply bind_ok in Hb as (m & _ & Hb).
  apply bind_ok in Hb as (ss & _ & Hb).
  apply bind_ok in Hb as (v & _ & Hb).
  apply bind_ok in Hb as (s & _ & Hb).
  injection Hb as <-. simpl. auto.
Qed.

(** With a positive standard deviation the BUY and the SELL tests of
    lines 53 and 58 cannot both pass on their price comparison. *)
Lemma below_lower_not_above_upper (w : list float) (b : Bands) (price : float) :
  bollinger w = Ok b ->
  PrimFloat.ltb 0%float (std b) = true ->
  PrimFloat.ltb price (lower b) = true ->
  PrimFloat.ltb (upper b) price = false.
Proof.
  intros Hb Hstd Hlow.
  destruct (bollinger_bands w b Hb) as [Hu Hl].
  rewrite Hu. rewrite Hl in Hlow.
  exact (bands_exclusive (sma b) (std b) price Hstd Hlow).
Qed.

(** C6, as the code has it: with a long position, a price strictly below
    the lower band of a full window with positive standard deviation
    emits no signal and leaves the position as it was: the BUY branch
    asks for a position <= 0, and the price is not above the upper band,
    so the SELL branch is not taken either. *)
Theorem long_position_no_signal
    (self : LocoHFTStrategy) (symbol : string) (price volume : float)
    (timestamp : Z) (b : Bands) :
  lookback self <= len (prices_at_37 self symbol price) ->
  bollinger (prices_at_37 self symbol price) = Ok b ->
  PrimFloat.ltb 0%float (std b) = true ->
  0 < position self symbol ->
  PrimFloat.ltb price (lower b) = true ->
  let self' := fst (on_market_data self symbol price volume timestamp) in
  let o := snd (on_market_data self symbol price volume timestamp) in
  o = NoSignal /\
  returned o = Ok None /\
  (forall s, o <> Emitted s) /\
  positions self' = positions self /\
  position self' symbol = position self symbol.
Proof.
  intros Hfull Hb Hstd Hlong Hlow self' o. subst self' o.
  rewrite (on_market_data_full _ _ _ _ _ Hfull), Hb.
  rewrite (mean_reversion_positive_std _ _ _ _ Hstd).
  change (position (self_at_37 self symbol price) symbol)
    with (position self symbol).
  cbv zeta. rewrite Hlow.
  rewrite (below_lower_not_above_upper _ _ _ Hb Hstd Hlow).
  replace (position self symbol <=? 0) with false
    by (symmetry; apply Z.leb_gt; exact Hlong).
  simpl. repeat split; discriminate.
Qed.

Lemma long_position_no_signal_witness :
  position long_engine "X" = 100 /\
  snd (on_market_data long_engine "X" 10%float 1%float 20) = NoSignal /\
  position (fst (on_market_data long_engine "X" 10%float 1%float 20)) "X"
    = position long_engine "X".
Proof.
  destruct (long_position_no_signal long_engine "X" 10%float 1%float 20 long_bands)
    as (Hno & _ & _ & _ & Hpos).
  - vm_compute. discriminate.
  - vm_compute. reflexivity.
  - vm_compute. reflexivity.
  - vm_compute. reflexivity.
  - vm_compute. reflexivity.
  - split; [vm_compute; reflexivity|]. split; [exact Hno | exact Hpos].
Defined.

(** C6 as stated fails: the engine is long 100 on "X", the window is full
    with positive standard deviation, the price 10 is strictly below the
    lower band, and the call returns no signal and leaves the position
    at 100. *)
Lemma long_position_below_band_no_buy :
  position long_engine "X" = 100 /\
  lookback long_engine <= len (prices_at_37 long_engine "X" 10%float) /\
  bollinger (prices_at_37 long_engine "X" 10%float) = Ok long_bands /\
  PrimFloat.ltb 0%float (std long_bands) = true /\
  PrimFloat.ltb 10%float (lower long_bands) = true /\
  snd (on_market_data long_engine "X" 10%float 1%float 20) = NoSignal /\
  returned (snd (on_market_data long_engine "X" 10%float 1%float 20)) = Ok None /\
  position (fst (on_market_data long_engine "X" 10%float 1%float 20)) "X" = 100.
Proof.
  repeat split; try (vm_compute; reflexivity).
  vm_compute. discriminate.
Qed.

(** ** A window with zero standard deviation *)

(** On a full window whose standard deviation is zero the call never
    emits a signal and never changes the ledger; it returns no signal or
    raises at the z-score. *)
Lemma zero_std_never_emits
    (self : LocoHFTStrategy) (symbol : string) (price volume : float)
    (timestamp : Z) (b : Bands) :
  lookback self <= len (prices_at_37 self symbol price) ->
  bollinger (prices_at_37 self symbol price) = Ok b ->
  PrimFloat.eqb (std b) 0%float = true ->
  let self' := fst (on_market_data self symbol price volume timestamp) in
  let o := snd (on_market_data self symbol price volume timestamp) in
  (o = NoSignal \/ o = Raised ZeroDivisionError) /\
  positions self' = positions self.
Proof.
  intros Hfull Hb Hz self' o. subst self' o.
  rewrite (on_market_data_full _ _ _ _ _ Hfull), Hb.
  rewrite (mean_reversion_zero_std _ _ _ _ Hz). cbv zeta.
  destruct (_ || _); simpl; auto.
Qed.

(** C4, on the code: the fresh engine fed [tiny_prices] for one symbol
    computes, on the twentieth call, a variance and a standard deviation
    of exactly zero with the price strictly below the lower band and a
    flat position, and the call raises ZeroDivisionError at the z-score.
    No signal is emitted and the position stays 0. *)
Theorem zero_std_reaches_division :
  (exists b,
     bollinger tiny_prices = Ok b /\
     variance b = 0%float /\ std b = 0%float /\
     PrimFloat.ltb 1e-200%float (lower b) = true) /\
  snd (run strategy (ticks_of "X" tiny_prices))
    = replicate 19 Insufficient ++ [Raised ZeroDivisionError] /\
  returned (Raised ZeroDivisionError) = Raise ZeroDivisionError /\
  position (fst (run strategy (ticks_of "X" tiny_prices))) "X" = 0.
Proof.
  split; [|split; [|split]].
  - eexists. split; [vm_compute; reflexivity|].
    repeat split; vm_compute; reflexivity.
  - vm_compute. reflexivity.
  - reflexivity.
  - vm_compute. reflexivity.
Qed.

(** The same on a constant stream: with left-to-right summation the mean
    of twenty prices [tiny_constant] is one unit in the last place above
    the price, the squared deviations underflow, and the twentieth and
    twenty-first calls raise. *)
Lemma constant_stream_reaches_division :
  (exists b,
     bollinger (replicate 20 tiny_constant) = Ok b /\
     std b = 0%float /\
     PrimFloat.ltb tiny_constant (lower b) = true) /\
  snd (run strategy (ticks_of "X" (replicate 21 tiny_constant)))
    = replicate 19 Insufficient
        ++ [Raised ZeroDivisionError; Raised ZeroDivisionError].
Proof.
  split.
  - eexists. split; [vm_compute; reflexivity|].
    repeat split; vm_compute; reflexivity.
  - vm_compute. reflexivity.
Qed.

(** ** The worked example with a lookback of 3 *)

(** C7 as stated fails: the constructor fixes the lookback at 20, and the
    constructed engine returns the insufficient-history outcome on all
    four calls; with the lookback attribute set to 3 the third call is
    already past the insufficient-history return, and the fourth call
    (price 80) emits no BUY and leaves the position at 0. *)
Lemma example_emits_no_buy :
  lookback (__init__ 100000%float) = 20 /\
  snd (run (__init__ 100000%float) (ticks_of "Y" example_prices))
    = [Insufficient; Insufficient; Insufficient; Insufficient] /\
  snd (run example_engine (ticks_of "Y" example_prices))
    = [Insufficient; Insufficient; NoSignal; NoSignal] /\
  position (fst (run example_engine (ticks_of "Y" example_prices))) "Y" = 0 /\
  position (fst (run example_engine (ticks_of "Y" example_prices))) "Y" <> 100.
Proof.
  repeat split; try (vm_compute; reflexivity).
  vm_compute. discriminate.
Qed.

(** C7, as the code has it: on the engine constructed with capital 100000
    and its lookback then set to 3, the prices [100, 102, 98, 80] give the
    insufficient-history outcome on the first two calls only; the third
    call computes mean 100, variance 8/3, std about 1.633 and lower band
    about 96.73 over [100, 102, 98] and emits nothing; the fourth call
    (price 80) has evicted 100 and computes over [102, 98, 80] a mean of
    about 93.33 and a lower band of about 74.20, so 80 is not below it: no
    signal, and the position stays 0. *)
Theorem example_lookback_3 :
  let outcomes := snd (run example_engine (ticks_of "Y" example_prices)) in
  let final := fst (run example_engine (ticks_of "Y" example_prices)) in
  let third := fst (run example_engine (ticks_of "Y" (take 3 example_prices))) in
  outcomes = [Insufficient; Insufficient; NoSignal; NoSignal] /\
  position final "Y" = 0 /\
  window third "Y" = [100; 102; 98]%float /\
  window final "Y" = [102; 98; 80]%float /\
  (exists b,
     bollinger (window third "Y") = Ok b /\
     sma b = 100%float /\
     variance b = PrimFloat.div 8%float 3%float /\
     between 2.666%float (variance b) 2.667%float /\
     between 1.632%float (std b) 1.634%float /\
     between 96.73%float (lower b) 96.74%float /\
     between 103.26%float (upper b) 103.27%float) /\
  (exists b,
     bollinger (window final "Y") = Ok b /\
     between 93.33%float (sma b) 93.34%float /\
     between 9.56%float (std b) 9.57%float /\
     between 74.19%float (lower b) 74.20%float /\
     PrimFloat.ltb 80%float (lower b) = false /\
     PrimFloat.ltb (upper b) 80%float = false).
Proof.
  cbv zeta.
  split; [vm_compute; reflexivity|].
  split; [vm_compute; reflexivity|].
  split; [vm_compute; reflexivity|].
  split; [vm_compute; reflexivity|].
  split.
  - eexists. split; [vm_compute; reflexivity|].
    unfold between. repeat split; vm_compute; reflexivity.
  - eexists. split; [vm_compute; reflexivity|].
    unfold between. repeat split; vm_compute; reflexivity.
Qed.

(** ** The risk gate *)

(** C8: on_risk_update returns False exactly when var_95 is strictly
    above capital * 0.02 (at capital * 0.02 itself it returns True); the
    verdict is the same for every exposure, the object is left as it was,
    and the same call on the object it leaves gives the same answer. *)
Theorem risk_gate_threshold
    (self : LocoHFTStrategy) (var_95 exposure : float) :
  let limit := PrimFloat.mul (capital self) 0.02%float in
  let r := on_risk_update self var_95 exposure in
  (snd r = false <-> PrimFloat.ltb limit var_95 = true) /\
  snd (on_risk_update self limit exposure) = true /\
  (forall exposure', on_risk_update self var_95 exposure' = r) /\
  fst (fst r) = self /\
  on_risk_update (fst (fst r)) var_95 exposure = r.
Proof.
  intros limit r. subst r limit. unfold on_risk_update.
  rewrite ltb_irrefl.
  destruct (PrimFloat.ltb (PrimFloat.mul (capital self) 0.02%float) var_95) eqn:H;
    simpl; rewrite ?H; repeat split; auto; discriminate.
Qed.

(** ** The equal-weight fallback *)

Lemma Z_to_nat_len {A : Type} (l : list A) : Z.to_nat (len l) = length l.
Proof. unfold len. apply Nat2Z.id. Qed.

Lemma calculate_portfolio_weights_cases
    (self : LocoHFTStrategy) (returns_data : list (list float)) :
  calculate_portfolio_weights self returns_data =
    match length returns_data with
    | O => Raise ZeroDivisionError
    | S _ => Ok (repeat (PrimFloat.div 1%float (float_of_int (len returns_data)))
                   (length returns_data))
    end.
Proof.
  unfold calculate_portfolio_weights, truediv_int.
  rewrite Z_to_nat_len. unfold len.
  destruct (length returns_data) as [|k]; [reflexivity|].
  replace (Z.of_nat (S k) =? 0) with false by (symmetry; apply Z.eqb_neq; lia).
  reflexivity.
Qed.

(** C9: for n > 0 rows the weights are n copies of 1/n (four rows give
    four times 0.25); for no rows the call raises ZeroDivisionError and
    returns no list. *)
Theorem equal_weights
    (self : LocoHFTStrategy) (returns_data : list (list float)) :
  let n := length returns_data in
  let w := PrimFloat.div 1%float (float_of_int (Z.of_nat n)) in
  calculate_portfolio_weights self returns_data =
    match n with
    | O => Raise ZeroDivisionError
    | S _ => Ok (repeat w n)
    end /\
  (forall ws, calculate_portfolio_weights self returns_data = Ok ws ->
     (0 < n)%nat /\ length ws = n /\ Forall (fun x => x = w) ws) /\
  (forall r1 r2 r3 r4,
     calculate_portfolio_weights self [r1; r2; r3; r4]
       = Ok [0.25; 0.25; 0.25; 0.25]%float).
Proof.
  cbv zeta. rewrite calculate_portfolio_weights_cases. unfold len.
  split; [reflexivity|]. split.
  - intros ws Hws.
    destruct (length returns_data) as [|k] eqn:Hn; [discriminate|].
    assert (Hrep : ws = repeat (PrimFloat.div 1%float
                                  (float_of_int (Z.of_nat (S k)))) (S k))
      by congruence.
    rewrite Hrep. split; [lia|]. split.
    + apply repeat_length.
    + apply Forall_forall. intros x Hx. apply list_elem_of_In in Hx.
      apply repeat_spec in Hx. exact Hx.
  - intros r1 r2 r3 r4. vm_compute. reflexivity.
Qed.


(** * Further properties of the strategy module *)

(** ** More facts on binary64 *)

Section FloatSigns.

Lemma Prim2SF_nan : Prim2SF nan = S754_nan.
Proof. reflexivity. Qed.

Lemma ltb_nan_l (x : float) : PrimFloat.ltb nan x = false.
Proof. rewrite FloatAxioms.ltb_spec, Prim2SF_nan. reflexivity. Qed.

Lemma ltb_nan_r (x : float) : PrimFloat.ltb x nan = false.
Proof.
  rewrite FloatAxioms.ltb_spec, Prim2SF_nan. unfold SFltb.
  destruct (Prim2SF x); reflexivity.
Qed.

Lemma mul_nan_l (x : float) : PrimFloat.mul nan x = nan.
Proof.
  apply Prim2SF_inj. rewrite FloatAxioms.mul_spec, Prim2SF_nan. reflexivity.
Qed.

Lemma div_nan_l (x : float) : PrimFloat.div nan x = nan.
Proof.
  apply Prim2SF_inj. rewrite FloatAxioms.div_spec, Prim2SF_nan. reflexivity.
Qed.

(** The lexicographic order gives back [SFcompare] on floats that are
    not NaN. *)
Lemma rnk_lt_SFcompare (f1 f2 : spec_float) :
  f1 <> S754_nan -> f2 <> S754_nan ->
  lex_lt (rnk f1) (rnk f2) -> SFcompare f1 f2 = Some Lt.
Proof.
  unfold lex_lt.
  destruct f1 as [s1|s1| |s1 m1 e1], f2 as [s2|s2| |s2 m2 e2];
    try destruct s1; try destruct s2; cbn [SFcompare rnk fst snd];
    intros N1 N2 H; try congruence; try (exfalso; lia); try reflexivity.
  - destruct (Z.compare_spec e1 e2) as [He|He|He]; try reflexivity; [|exfalso; lia].
    rewrite Pos.compare_cont_spec. cbn.
    destruct (Pos.compare_spec m1 m2); simpl; try reflexivity; exfalso; lia.
  - destruct (Z.compare_spec e1 e2) as [He|He|He]; try reflexivity; [|exfalso; lia].
    rewrite Pos.compare_cont_spec. cbn.
    destruct (Pos.compare_spec m1 m2); simpl; try reflexivity; exfalso; lia.
Qed.

Lemma ltb_trans (x y z : float) :
  PrimFloat.ltb x y = true -> PrimFloat.ltb y z = true -> PrimFloat.ltb x z = true.
Proof.
  rewrite !FloatAxioms.ltb_spec. unfold SFltb.
  destruct (SFcompare (Prim2SF x) (Prim2SF y)) as [[]|] eqn:C1; try discriminate.
  destruct (SFcompare (Prim2SF y) (Prim2SF z)) as [[]|] eqn:C2; try discriminate.
  intros _ _.
  apply SFcompare_Lt_rnk in C1 as (L1 & N1 & _).
  apply SFcompare_Lt_rnk in C2 as (L2 & _ & N2).
  rewrite (rnk_lt_SFcompare _ _ N1 N2 (lex_lt_trans _ _ _ L1 L2)). reflexivity.
Qed.

Lemma SFcompare_refl (f : spec_float) : f <> S754_nan -> SFcompare f f = Some Eq.
Proof.
  destruct f as [s|s| |s m e]; simpl; try congruence; intros _.
  - destruct s; reflexivity.
  - rewrite Z.compare_refl, Pos.compare_cont_refl. destruct s; reflexivity.
Qed.

Lemma is_nan_spec (x : float) : PrimFloat.is_nan x = true <-> Prim2SF x = S754_nan.
Proof.
  unfold PrimFloat.is_nan. rewrite FloatAxioms.eqb_spec. unfold SFeqb. split.
  - intros H. destruct (Prim2SF x) as [s|s| |s m e] eqn:E; try reflexivity;
      rewrite SFcompare_refl in H by discriminate; discriminate.
  - intros ->. reflexivity.
Qed.

(** *** Signs of the results *)

Lemma shr_1_nonneg (mrs : shr_record) : 0 <= shr_m mrs -> 0 <= shr_m (shr_1 mrs).
Proof.
  destruct mrs as [m r s]. cbn [shr_m].
  destruct m as [|[p|p|]|p]; cbn; lia.
Qed.

Lemma shr_fexp_nonneg (m e : Z) (l : location) :
  0 <= m -> 0 <= shr_m (fst (shr_fexp prec emax m e l)).
Proof.
  intros Hm. unfold shr_fexp, shr.
  assert (H0 : 0 <= shr_m (shr_record_of_loc m l)) by (destruct l as [|[]]; exact Hm).
  destruct (fexp prec emax (Zdigits2 m + e) - e) as [|p|p]; cbn [fst]; try exact H0.
  rewrite iter_pos_nat. induction (Pos.to_nat p) as [|k IH]; [exact H0|].
  rewrite Nat.iter_succ. apply shr_1_nonneg, IH.
Qed.

Lemma round_nearest_even_nonneg (m : Z) (l : location) :
  0 <= m -> 0 <= round_nearest_even m l.
Proof.
  intros Hm. destruct l as [|[]]; cbn [round_nearest_even]; try lia.
  destruct (Z.even m); lia.
Qed.

(** Rounding a mantissa that is not negative gives zero, a finite float
    or an infinity, of the sign asked for. *)
Lemma binary_round_aux_shape (sx : bool) (m e : Z) (l : location) :
  0 <= m ->
  let r := binary_round_aux prec emax sx m e l in
  r = S754_zero sx \/ r = S754_infinity sx \/ exists p x, r = S754_finite sx p x.
Proof.
  intros Hm. unfold binary_round_aux.
  pose proof (shr_fexp_nonneg m e l Hm) as H1.
  destruct (shr_fexp prec emax m e l) as [mrs' e']. cbn [fst] in H1.
  pose proof (shr_fexp_nonneg _ e' loc_Exact
                (round_nearest_even_nonneg _ (loc_of_shr_record mrs') H1)) as H2.
  destruct (shr_fexp prec emax _ e' loc_Exact) as [mrs'' e'']. cbn [fst] in H2.
  cbv zeta. destruct (shr_m mrs'') as [|p|p]; [auto| |lia].
  destruct (e'' <=? emax - prec); eauto.
Qed.

Lemma binary_round_aux_not_negative (m e : Z) (l : location) :
  not_negative (binary_round_aux prec emax false m e l).
Proof.
  unfold binary_round_aux.
  destruct (shr_fexp prec emax m e l) as [mrs' e'].
  destruct (shr_fexp prec emax _ e' loc_Exact) as [mrs'' e''].
  destruct (shr_m mrs'') as [|p|p]; try exact I; try reflexivity.
  destruct (e'' <=? emax - prec); reflexivity.
Qed.

Lemma binary_normalize_not_negative (m e : Z) :
  0 <= m -> not_negative (binary_normalize prec emax m e false).
Proof.
  intros Hm. destruct m as [|q|q]; [reflexivity| |lia].
  cbn [binary_normalize]. unfold binary_round.
  destruct (shl_align q e _) as [mz ez]. apply binary_round_aux_not_negative.
Qed.

Lemma SFmul_square_not_negative (x : spec_float) :
  not_negative (SFmul prec emax x x).
Proof.
  destruct x as [s|s| |s m e]; cbn [SFmul]; try exact I.
  - destruct s; reflexivity.
  - destruct s; reflexivity.
  - replace (xorb s s) with false by (destruct s; reflexivity).
    apply binary_round_aux_not_negative.
Qed.

Lemma SFmul_not_negative (x y : spec_float) :
  not_negative x -> not_negative y -> not_negative (SFmul prec emax x y).
Proof.
  destruct x as [sx|sx| |sx mx ex], y as [sy|sy| |sy my ey];
    cbn [not_negative SFmul]; intros; subst; try exact I; try reflexivity.
  apply binary_round_aux_not_negative.
Qed.

Lemma SFadd_not_negative (x y : spec_float) :
  not_negative x -> not_negative y -> not_negative (SFadd prec emax x y).
Proof.
  destruct x as [sx|sx| |sx mx ex], y as [sy|sy| |sy my ey];
    cbn [not_negative SFadd]; intros; subst; try exact I; try reflexivity.
  apply binary_normalize_not_negative. cbn [cond_Zopp]. lia.
Qed.

Lemma SFdiv_not_negative (x y : spec_float) :
  not_negative x -> not_negative y -> not_negative (SFdiv prec emax x y).
Proof.
  destruct x as [sx|sx| |sx mx ex], y as [sy|sy| |sy my ey];
    cbn [not_negative SFdiv]; intros; subst; try exact I; try reflexivity.
  destruct (SFdiv_core_binary prec emax (Zpos mx) ex (Zpos my) ey) as [[mz ez] lz].
  apply binary_round_aux_not_negative.
Qed.

Lemma SFsqrt_core_nonneg (m e : Z) :
  0 <= m -> 0 <= fst (fst (SFsqrt_core_binary prec emax m e)).
Proof.
  intros Hm. unfold SFsqrt_core_binary. cbv zeta.
  set (s := e - 2 * _).
  set (m' := match s with Zpos _ => Z.shiftl m s | Z0 => m | Zneg _ => 0 end).
  assert (Hm' : 0 <= m').
  { subst m'. destruct s; try lia. apply Z.shiftl_nonneg. exact Hm. }
  pose proof (Z.sqrtrem_spec m' Hm') as Hs.
  destruct (Z.sqrtrem m') as [q r]. cbn [fst]. lia.
Qed.

(** The square root of a float that is not negative is not negative, and
    is a NaN only for a NaN. *)
Lemma SFsqrt_not_negative (x : spec_float) :
  not_negative x ->
  not_negative (SFsqrt prec emax x) /\
  (SFsqrt prec emax x = S754_nan -> x = S754_nan).
Proof.
  destruct x as [s|s| |s m e]; cbn [not_negative SFsqrt]; intros H; subst;
    try (split; [exact I || reflexivity | congruence]).
  pose proof (SFsqrt_core_nonneg (Zpos m) e ltac:(lia)) as Hq.
  destruct (SFsqrt_core_binary prec emax (Zpos m) e) as [[mz ez] lz].
  cbn [fst] in Hq. split; [apply binary_round_aux_not_negative|].
  destruct (binary_round_aux_shape false mz ez lz Hq) as [E|[E|(p & x & E)]];
    rewrite E; discriminate.
Qed.

End FloatSigns.

(** ** The statistics are never negative *)

(** A float that is zero, positive or NaN, of sign bit clear. *)
Definition nonneg (x : float) : Prop := not_negative (Prim2SF x).

Lemma nonneg_zero : nonneg 0%float.
Proof. reflexivity. Qed.

Lemma nonneg_square (x : float) : nonneg (PrimFloat.mul x x).
Proof.
  unfold nonneg. rewrite FloatAxioms.mul_spec. apply SFmul_square_not_negative.
Qed.

Lemma nonneg_add (x y : float) : nonneg x -> nonneg y -> nonneg (PrimFloat.add x y).
Proof.
  unfold nonneg. rewrite FloatAxioms.add_spec. apply SFadd_not_negative.
Qed.

Lemma nonneg_float_of_int (n : Z) : nonneg (float_of_int n).
Proof.
  unfold nonneg, float_of_int.
  rewrite FloatAxioms.of_uint63_spec, Uint63.of_Z_spec.
  apply binary_normalize_not_negative.
  apply Z.mod_pos_bound. reflexivity.
Qed.

Lemma nonneg_div_int (x : float) (n : Z) :
  nonneg x -> nonneg (PrimFloat.div x (float_of_int n)).
Proof.
  intros Hx. unfold nonneg. rewrite FloatAxioms.div_spec.
  apply SFdiv_not_negative; [exact Hx | apply nonneg_float_of_int].
Qed.

Lemma nonneg_double (x : float) : nonneg x -> nonneg (PrimFloat.mul 2%float x).
Proof.
  intros Hx. unfold nonneg. rewrite FloatAxioms.mul_spec.
  apply SFmul_not_negative; [reflexivity | exact Hx].
Qed.

Lemma nonneg_sqrt (x : float) :
  nonneg x ->
  nonneg (PrimFloat.sqrt x) /\
  (PrimFloat.is_nan (PrimFloat.sqrt x) = true -> PrimFloat.is_nan x = true).
Proof.
  intros Hx. unfold nonneg. rewrite !is_nan_spec, FloatAxioms.sqrt_spec.
  apply SFsqrt_not_negative, Hx.
Qed.

(** [math.sqrt] of a float that is not negative does not raise. *)
Lemma math_sqrt_nonneg (x : float) :
  nonneg x -> math_sqrt x = Ok (PrimFloat.sqrt x).
Proof.
  intros Hx. unfold math_sqrt.
  destruct (nonneg_sqrt x Hx) as [_ Hnan].
  destruct (PrimFloat.is_nan (PrimFloat.sqrt x)) eqn:E; [|reflexivity].
  rewrite (Hnan eq_refl). reflexivity.
Qed.

Lemma pow2_raises (x : float) (e : exn) : pow2 x = Raise e -> e = OverflowError.
Proof.
  unfold pow2.
  destruct (PrimFloat.is_finite x && PrimFloat.is_infinity (PrimFloat.mul x x));
    congruence.
Qed.

Lemma sum_sq_dev_nonneg (m : float) (w : list float) :
  forall acc ss, nonneg acc -> sum_sq_dev m acc w = Ok ss -> nonneg ss.
Proof.
  induction w as [|p w IH]; intros acc ss Hacc; simpl.
  - intros [= <-]. exact Hacc.
  - destruct (pow2 (PrimFloat.sub p m)) as [sq|e] eqn:Hsq; simpl; [|discriminate].
    apply pow2_ok in Hsq. subst sq.
    apply IH, nonneg_add; [exact Hacc | apply nonneg_square].
Qed.

Lemma sum_sq_dev_raises (m : float) (w : list float) :
  forall acc e, sum_sq_dev m acc w = Raise e -> e = OverflowError.
Proof.
  induction w as [|p w IH]; intros acc e; simpl; [discriminate|].
  destruct (pow2 (PrimFloat.sub p m)) as [sq|e'] eqn:Hsq; simpl.
  - apply IH.
  - intros [= <-]. exact (pow2_raises _ _ Hsq).
Qed.

Lemma truediv_int_len (x : float) {A : Type} (w : list A) :
  truediv_int x (len w) =
    match w with
    | [] => Raise ZeroDivisionError
    | _ :: _ => Ok (PrimFloat.div x (float_of_int (len w)))
    end.
Proof.
  unfold truediv_int, len. destruct w as [|a w]; [reflexivity|].
  replace (Z.of_nat (length (a :: w)) =? 0) with false; [reflexivity|].
  symmetry. apply Z.eqb_neq. simpl length. lia.
Qed.

(** The variance and the standard deviation of computed bands are not
    negative. *)
Lemma bollinger_nonneg (w : list float) (b : Bands) :
  bollinger w = Ok b -> nonneg (variance b) /\ nonneg (std b).
Proof.
  intros Hb. unfold bollinger in Hb.
  apply bind_ok in Hb as (m & Hm & Hb).
  apply bind_ok in Hb as (ss & Hss & Hb).
  apply bind_ok in Hb as (v & Hv & Hb).
  apply bind_ok in Hb as (s & Hs & Hb).
  injection Hb as <-. cbn [variance std].
  apply truediv_int_ok in Hv as [_ ->].
  apply math_sqrt_ok in Hs as ->.
  assert (Hv : nonneg (PrimFloat.div ss (float_of_int (len w)))).
  { apply nonneg_div_int. exact (sum_sq_dev_nonneg _ _ _ _ nonneg_zero Hss). }
  split; [exact Hv | apply nonneg_sqrt, Hv].
Qed.

(** Adding and subtracting a float that is not negative keeps the order
    of the results. *)
Lemma sub_not_above_add (a t : float) :
  nonneg t ->
  PrimFloat.ltb (PrimFloat.add a t) (PrimFloat.sub a t) = false.
Proof.
  intros Ht.
  destruct (PrimFloat.ltb (PrimFloat.add a t) (PrimFloat.sub a t)) eqn:H;
    [exfalso|reflexivity].
  rewrite FloatAxioms.ltb_spec, FloatAxioms.add_spec, FloatAxioms.sub_spec in H.
  unfold SFltb in H.
  destruct (SFcompare _ _) as [[]|] eqn:C in H; try discriminate.
  apply SFcompare_Lt_rnk in C as (L & N1 & N2).
  exact (lex_le_not_lt _ _ (SFsub_le_SFadd (Prim2SF a) (Prim2SF t) Ht N1 N2) L).
Qed.

Lemma add_sub_exclusive (a t p : float) :
  nonneg t ->
  PrimFloat.ltb p (PrimFloat.sub a t) = true ->
  PrimFloat.ltb (PrimFloat.add a t) p = false.
Proof.
  intros Ht Hlow.
  destruct (PrimFloat.ltb (PrimFloat.add a t) p) eqn:Hup; [|reflexivity].
  rewrite <- (sub_not_above_add a t Ht). symmetry.
  exact (ltb_trans _ _ _ Hup Hlow).
Qed.

(** X1: for every window whose bands are computed, whatever its standard
    deviation, the upper band is never strictly below the lower band,
    and no price passes both the BUY test of line 53 (price < lower) and
    the SELL test of line 58 (price > upper): the order of the two
    branches never decides which signal is emitted. *)
Theorem bands_never_cross (w : list float) (b : Bands) (price : float) :
  bollinger w = Ok b ->
  PrimFloat.ltb (upper b) (lower b) = false /\
  (PrimFloat.ltb price (lower b) = true -> PrimFloat.ltb (upper b) price = false) /\
  (PrimFloat.ltb (upper b) price = true -> PrimFloat.ltb price (lower b) = false).
Proof.
  intros Hb.
  destruct (bollinger_bands w b Hb) as [-> ->].
  destruct (bollinger_nonneg w b Hb) as [_ Hs].
  pose proof (nonneg_double _ Hs) as Ht.
  split; [apply sub_not_above_add, Ht|]. split.
  - apply add_sub_exclusive, Ht.
  - intros Hup.
    destruct (PrimFloat.ltb price _) eqn:Hlow; [|reflexivity].
    rewrite (add_sub_exclusive _ _ _ Ht Hlow) in Hup. discriminate.
Qed.

Lemma bands_never_cross_witness :
  PrimFloat.ltb (upper long_bands) (lower long_bands) = false /\
  PrimFloat.ltb (upper long_bands) 10%float = false.
Proof.
  destruct (bands_never_cross (prices_at_37 long_engine "X" 10%float)
              long_bands 10%float) as (H1 & H2 & _).
  - vm_compute. reflexivity.
  - split; [exact H1|]. apply H2. vm_compute. reflexivity.
Defined.

(** An exception of the band computation is ZeroDivisionError on the empty
    window and OverflowError on any other. *)
Lemma bollinger_exception_cases (w : list float) (e : exn) :
  bollinger w = Raise e ->
  (e = ZeroDivisionError /\ w = []) \/ (e = OverflowError /\ w <> []).
Proof.
  unfold bollinger. rewrite truediv_int_len.
  destruct w as [|p w]; [intros [= <-]; auto|].
  cbn [mbind result_bind Py.bind].
  set (m := PrimFloat.div _ _).
  destruct (sum_sq_dev m 0%float (p :: w)) as [ss|e'] eqn:Hss;
    cbn [mbind result_bind Py.bind].
  - rewrite truediv_int_len. cbn [mbind result_bind Py.bind].
    rewrite math_sqrt_nonneg; [discriminate|].
    apply nonneg_div_int.
    exact (sum_sq_dev_nonneg _ _ _ _ nonneg_zero Hss).
  - intros [= <-]. right. split; [|discriminate].
    exact (sum_sq_dev_raises _ _ _ _ Hss).
Qed.

(** X2: the band computation raises ZeroDivisionError exactly on the empty
    window, and otherwise can only raise OverflowError (a squared
    deviation too large for a float): [math.sqrt] never raises, because
    the variance it is given is never negative. *)
Theorem bollinger_raises (w : list float) :
  (w = [] -> bollinger w = Raise ZeroDivisionError) /\
  (forall e, bollinger w = Raise e ->
     (e = ZeroDivisionError /\ w = []) \/ (e = OverflowError /\ w <> [])) /\
  (forall e, bollinger w = Raise e -> e <> ValueError).
Proof.
  split; [intros ->; reflexivity|]. split; [apply bollinger_exception_cases|].
  intros e He.
  destruct (bollinger_exception_cases w e He) as [[-> _]|[-> _]]; discriminate.
Qed.

(** ** One call, seen from outside *)

Lemma signal_of_ok (act : string) (price : float) (b : Bands) (s : Signal) :
  signal_of act price b = Ok s ->
  PrimFloat.eqb (std b) 0%float = false /\ s = expected_signal act price b.
Proof.
  unfold signal_of, truediv.
  destruct (PrimFloat.eqb (std b) 0%float); [discriminate|].
  intros [= <-]. auto.
Qed.

Lemma signal_of_raises (act : string) (price : float) (b : Bands) (e : exn) :
  signal_of act price b = Raise e ->
  e = ZeroDivisionError /\ PrimFloat.eqb (std b) 0%float = true.
Proof.
  unfold signal_of, truediv.
  destruct (PrimFloat.eqb (std b) 0%float); [|discriminate].
  intros [= <-]. auto.
Qed.

(** X3: a call for one symbol leaves every other symbol's window and
    position, the capital and the lookback as they were, whatever the
    outcome of the call. *)
Theorem on_market_data_isolation
    (self : LocoHFTStrategy) (symbol other : string) (price volume : float)
    (timestamp : Z) :
  other <> symbol ->
  let after := fst (on_market_data self symbol price volume timestamp) in
  window after other = window self other /\
  position after other = position self other /\
  price_history after !! other = price_history self !! other /\
  positions after !! other = positions self !! other /\
  capital after = capital self /\
  lookback after = lookback self.
Proof.
  intros Hne after. subst after.
  destruct (on_market_data_fields self symbol price volume timestamp)
    as (Hh & Hl & Hc).
  assert (Hp : positions (fst (on_market_data self symbol price volume timestamp))
                 !! other = positions self !! other).
  { destruct (on_market_data_positions self symbol price volume timestamp)
      as [-> | [[_ ->] | [_ ->]]]; [reflexivity| |];
      apply lookup_insert_ne; congruence. }
  repeat split; try assumption.
  - rewrite on_market_data_window. rewrite decide_False by congruence. reflexivity.
  - unfold position. rewrite Hp. reflexivity.
  - rewrite Hh. apply lookup_insert_ne. congruence.
Qed.

Lemma on_market_data_isolation_witness :
  position (fst (on_market_data long_engine "Y" 5%float 1%float 0)) "X" = 100 /\
  length (window (fst (on_market_data long_engine "Y" 5%float 1%float 0)) "X") = 20%nat.
Proof.
  destruct (on_market_data_isolation long_engine "Y" "X" 5%float 1%float 0)
    as (Hw & Hp & _).
  - discriminate.
  - split.
    + rewrite Hp. vm_compute. reflexivity.
    + rewrite Hw. vm_compute. reflexivity.
Defined.

Lemma last_push_price (L : Z) (h : list float) (p : float) :
  0 < L -> last (push_price L h p) = Some p.
Proof.
  intros HL. unfold push_price.
  destruct (L <? len (h ++ [p])) eqn:E; [|apply last_snoc].
  destruct h as [|x h]; [|simpl; apply last_snoc].
  apply Z.ltb_lt in E. unfold len in E. simpl in E. lia.
Qed.

(** X4: with a positive lookback, the tick's price is the newest element
    of the symbol's window after the call whatever the call's outcome:
    the history is updated before anything can raise, and is kept. *)
Theorem on_market_data_records_price
    (self : LocoHFTStrategy) (symbol : string) (price volume : float)
    (timestamp : Z) :
  0 < lookback self ->
  let after := fst (on_market_data self symbol price volume timestamp) in
  last (window after symbol) = Some price /\
  window after symbol = push_price (lookback self) (window self symbol) price /\
  (0 < length (window after symbol))%nat.
Proof.
  intros HL after. subst after.
  rewrite on_market_data_window, decide_True by reflexivity.
  unfold prices_at_37.
  pose proof (last_push_price (lookback self) (window self symbol) price HL) as Hlast.
  split; [exact Hlast|]. split; [reflexivity|].
  destruct (push_price _ _ _); [discriminate | simpl; lia].
Qed.

(** The engine after the nineteen first ticks of [tiny_prices]: the next
    call raises. *)
Definition tiny_engine : LocoHFTStrategy :=
  fst (run strategy (ticks_of "X" (replicate 19 2e-200%float))).

Lemma on_market_data_records_price_witness :
  snd (on_market_data tiny_engine "X" 1e-200%float 1%float 19)
    = Raised ZeroDivisionError /\
  last (window (fst (on_market_data tiny_engine "X" 1e-200%float 1%float 19)) "X")
    = Some 1e-200%float.
Proof.
  split; [vm_compute; reflexivity|].
  apply (on_market_data_records_price tiny_engine "X" 1e-200%float 1%float 19).
  vm_compute. reflexivity.
Defined.

Lemma mean_reversion_raises
    (self : LocoHFTStrategy) (symbol : string) (price : float) (b : Bands) (e : exn) :
  snd (mean_reversion self symbol price b) = Raised e ->
  e = ZeroDivisionError /\ PrimFloat.eqb (std b) 0%float = true.
Proof.
  unfold mean_reversion.
  destruct (PrimFloat.ltb price (lower b) && (position self symbol <=? 0)).
  { destruct (signal_of "BUY" price b) as [s|e'] eqn:E; simpl; [discriminate|].
    intros [= <-]. exact (signal_of_raises _ _ _ _ E). }
  destruct (PrimFloat.ltb (upper b) price && (0 <=? position self symbol)).
  { destruct (signal_of "SELL" price b) as [s|e'] eqn:E; simpl; [discriminate|].
    intros [= <-]. exact (signal_of_raises _ _ _ _ E). }
  discriminate.
Qed.

(** X5: with a positive lookback a call can only raise OverflowError, from
    a squared deviation, or ZeroDivisionError, from the z-score of a
    window whose standard deviation is zero; it never raises ValueError,
    and whenever it raises the positions are left as they were. *)
Theorem on_market_data_raises
    (self : LocoHFTStrategy) (symbol : string) (price volume : float)
    (timestamp : Z) (e : exn) :
  0 < lookback self ->
  snd (on_market_data self symbol price volume timestamp) = Raised e ->
  ((e = OverflowError /\
    bollinger (prices_at_37 self symbol price) = Raise OverflowError) \/
   (e = ZeroDivisionError /\
    exists b, bollinger (prices_at_37 self symbol price) = Ok b /\
              PrimFloat.eqb (std b) 0%float = true)) /\
  positions (fst (on_market_data self symbol price volume timestamp))
    = positions self.
Proof.
  intros HL. rewrite on_market_data_unfold.
  destruct (len (prices_at_37 self symbol price) <? lookback self);
    [discriminate|].
  destruct (bollinger (prices_at_37 self symbol price)) as [b|e'] eqn:Hb.
  - intros He. pose proof (mean_reversion_raises _ _ _ _ _ He) as [-> Hz].
    split; [right; eauto|].
    rewrite (mean_reversion_zero_std _ _ _ _ Hz). cbv zeta.
    destruct (_ || _); reflexivity.
  - cbn [snd fst]. intros [= ->]. split; [|reflexivity]. left.
    destruct (bollinger_exception_cases _ _ Hb) as [[_ Hnil]|[-> _]]; [|auto].
    exfalso. pose proof (last_push_price (lookback self) (window self symbol) price HL) as Hl.
    unfold prices_at_37 in Hnil. rewrite Hnil in Hl. discriminate.
Qed.

Lemma on_market_data_raises_witness :
  exists b, bollinger (prices_at_37 tiny_engine "X" 1e-200%float) = Ok b /\
            PrimFloat.eqb (std b) 0%float = true.
Proof.
  destruct (on_market_data_raises tiny_engine "X" 1e-200%float 1%float 19
              ZeroDivisionError) as [[[E _]|[_ H]] _].
  - vm_compute. reflexivity.
  - vm_compute. reflexivity.
  - discriminate.
  - exact H.
Defined.

(** X6: every signal a call emits is a BUY or a SELL (never the HOLD that
    the Signal class mentions) of size 100 at the tick's price with
    confidence 0.8 and the two metadata keys sma and z_score; it is
    emitted only on a full window with a non-zero standard deviation, a
    BUY only below the lower band from a position <= 0, which it raises
    by 100, a SELL only above the upper band from a position >= 0, which
    it lowers by 100. *)
Theorem emitted_signal_shape
    (self : LocoHFTStrategy) (symbol : string) (price0 volume : float)
    (timestamp : Z) (s : Signal) :
  snd (on_market_data self symbol price0 volume timestamp) = Emitted s ->
  let after := fst (on_market_data self symbol price0 volume timestamp) in
  let pos := position self symbol in
  size s = 100%float /\ price s = price0 /\ confidence s = 0.8%float /\
  map fst (metadata s) = ["sma"; "z_score"]%string /\
  action s <> "HOLD"%string /\
  lookback self <= len (prices_at_37 self symbol price0) /\
  exists b,
    bollinger (prices_at_37 self symbol price0) = Ok b /\
    PrimFloat.eqb (std b) 0%float = false /\
    map snd (metadata s)
      = [sma b; PrimFloat.div (PrimFloat.sub price0 (sma b)) (std b)] /\
    ((action s = "BUY"%string /\ PrimFloat.ltb price0 (lower b) = true /\
      pos <= 0 /\ position after symbol = pos + 100) \/
     (action s = "SELL"%string /\ PrimFloat.ltb (upper b) price0 = true /\
      0 <= pos /\ position after symbol = pos - 100)).
Proof.
  rewrite on_market_data_unfold.
  destruct (Z.ltb_spec (len (prices_at_37 self symbol price0)) (lookback self))
    as [Hlt|Hfull]; [discriminate|].
  destruct (bollinger (prices_at_37 self symbol price0)) as [b|e] eqn:Hb;
    [|discriminate].
  unfold mean_reversion.
  change (position (self_at_37 self symbol price0) symbol)
    with (position self symbol).
  destruct (PrimFloat.ltb price0 (lower b)) eqn:Hlow;
    destruct (Z.leb_spec (position self symbol) 0) as [Hle|Hgt]; cbn [andb].
  1: { destruct (signal_of "BUY" price0 b) as [s'|e] eqn:Hs; [|discriminate].
       cbn [snd fst]. intros [= <-].
       apply signal_of_ok in Hs as [Hz ->]. cbv zeta.
       rewrite position_insert.
       repeat split; try reflexivity; try discriminate; try assumption.
       exists b. repeat split; try reflexivity; try assumption. left. auto. }
  all: destruct (PrimFloat.ltb (upper b) price0) eqn:Hup;
    destruct (Z.leb_spec 0 (position self symbol)) as [Hge|Hlt0]; cbn [andb];
    try discriminate.
  all: destruct (signal_of "SELL" price0 b) as [s'|e] eqn:Hs; [|discriminate].
  all: cbn [snd fst]; intros [= <-].
  all: apply signal_of_ok in Hs as [Hz ->]; cbv zeta.
  all: rewrite position_insert.
  all: repeat split; try reflexivity; try discriminate; try assumption.
  all: exists b; repeat split; try reflexivity; try assumption; right; auto.
Qed.

Lemma emitted_signal_shape_witness :
  exists s, snd (on_market_data warm "X" 50%float 1%float 19) = Emitted s /\
            action s = "BUY"%string /\ size s = 100%float.
Proof.
  eexists. split; [vm_compute; reflexivity|].
  split; [reflexivity|].
  eapply (emitted_signal_shape warm "X" 50%float 1%float 19).
  vm_compute. reflexivity.
Defined.

(** ** Streams: the ledger and the signals *)

(** The lots a call's outcome moves: +100 for a BUY, -100 for a SELL. *)
Definition signed_lots (o : outcome) : Z :=
  match o with
  | Emitted s =>
      if decide (action s = "BUY"%string) then 100
      else if decide (action s = "SELL"%string) then -100
      else 0
  | _ => 0
  end.

(** The outcomes of the calls made for one symbol, in order. *)
Definition outcomes_for (sym : string) (ticks : list PriceTick)
    (os : list outcome) : list outcome :=
  map snd (filter (fun p => tick_symbol (fst p) = sym) (zip ticks os)).

Definition net_lots (os : list outcome) : Z :=
  foldr (fun o acc => signed_lots o + acc) 0 os.

(** The ticks of one symbol, in order. *)
Definition ticks_for (sym : string) (ticks : list PriceTick) : list PriceTick :=
  filter (fun t => tick_symbol t = sym) ticks.

(** Two objects that agree on the lookback and on one symbol's window
    and position. *)
Definition agree (sym : string) (s1 s2 : LocoHFTStrategy) : Prop :=
  lookback s1 = lookback s2 /\
  window s1 sym = window s2 sym /\
  position s1 sym = position s2 sym.

Lemma mean_reversion_ledger
    (self : LocoHFTStrategy) (symbol : string) (price : float) (b : Bands) :
  let r := mean_reversion self symbol price b in
  position (fst r) symbol = position self symbol + signed_lots (snd r).
Proof.
  unfold mean_reversion.
  destruct (PrimFloat.ltb price (lower b) && (position self symbol <=? 0)).
  { destruct (signal_of "BUY" price b) as [s|e] eqn:E; cbn [fst snd signed_lots].
    - apply signal_of_ok in E as [_ ->]. rewrite position_insert. reflexivity.
    - lia. }
  destruct (PrimFloat.ltb (upper b) price && (0 <=? position self symbol)).
  { destruct (signal_of "SELL" price b) as [s|e] eqn:E; cbn [fst snd signed_lots].
    - apply signal_of_ok in E as [_ ->]. rewrite position_insert. reflexivity.
    - lia. }
  cbn [fst snd signed_lots]. lia.
Qed.

Lemma on_market_data_ledger
    (self : LocoHFTStrategy) (symbol : string) (price volume : float)
    (timestamp : Z) :
  let r := on_market_data self symbol price volume timestamp in
  position (fst r) symbol = position self symbol + signed_lots (snd r).
Proof.
  rewrite on_market_data_unfold.
  destruct (len (prices_at_37 self symbol price) <? lookback self).
  { cbn [fst snd signed_lots]. change (position (self_at_37 _ _ _) symbol)
      with (position self symbol). lia. }
  destruct (bollinger (prices_at_37 self symbol price)) as [b|e].
  - exact (mean_reversion_ledger (self_at_37 self symbol price) symbol price b).
  - cbn [fst snd signed_lots]. change (position (self_at_37 _ _ _) symbol)
      with (position self symbol). lia.
Qed.

Lemma feed_other_symbol (self : LocoHFTStrategy) (t : PriceTick) (sym : string) :
  tick_symbol t <> sym ->
  lookback (fst (feed self t)) = lookback self /\
  window (fst (feed self t)) sym = window self sym /\
  position (fst (feed self t)) sym = position self sym.
Proof.
  intros Hne. unfold feed.
  destruct (on_market_data_fields self (tick_symbol t) (tick_price t)
              (tick_volume t) (tick_timestamp t)) as (_ & Hl & _).
  split; [exact Hl|]. split.
  - rewrite on_market_data_window. rewrite decide_False by exact Hne. reflexivity.
  - unfold position.
    destruct (on_market_data_positions self (tick_symbol t) (tick_price t)
                (tick_volume t) (tick_timestamp t)) as [-> | [[_ ->] | [_ ->]]];
      [reflexivity| |]; rewrite lookup_insert_ne by exact Hne; reflexivity.
Qed.

Lemma mean_reversion_outcome_agree
    (s1 s2 : LocoHFTStrategy) (symbol : string) (price : float) (b : Bands) :
  position s1 symbol = position s2 symbol ->
  snd (mean_reversion s1 symbol price b) = snd (mean_reversion s2 symbol price b).
Proof.
  intros H. unfold mean_reversion. rewrite H.
  destruct (PrimFloat.ltb price (lower b) && (position s2 symbol <=? 0)).
  { destruct (signal_of "BUY" price b); reflexivity. }
  destruct (PrimFloat.ltb (upper b) price && (0 <=? position s2 symbol)).
  { destruct (signal_of "SELL" price b); reflexivity. }
  reflexivity.
Qed.

(** The outcome of a call is decided by the lookback and by the window
    and the position of the tick's own symbol. *)
Lemma feed_own_symbol (s1 s2 : LocoHFTStrategy) (t : PriceTick) :
  agree (tick_symbol t) s1 s2 ->
  snd (feed s1 t) = snd (feed s2 t) /\
  agree (tick_symbol t) (fst (feed s1 t)) (fst (feed s2 t)).
Proof.
  intros (Hl & Hw & Hp).
  assert (Hprices : prices_at_37 s1 (tick_symbol t) (tick_price t)
                    = prices_at_37 s2 (tick_symbol t) (tick_price t)).
  { unfold prices_at_37. rewrite Hl, Hw. reflexivity. }
  assert (Ho : snd (feed s1 t) = snd (feed s2 t)).
  { unfold feed. rewrite !on_market_data_unfold, Hprices, Hl.
    destruct (len _ <? lookback s2); [reflexivity|].
    destruct (bollinger _) as [b|e]; [|reflexivity].
    apply mean_reversion_outcome_agree. exact Hp. }
  split; [exact Ho|]. unfold agree.
  unfold feed in *.
  destruct (on_market_data_fields s1 (tick_symbol t) (tick_price t)
              (tick_volume t) (tick_timestamp t)) as (_ & -> & _).
  destruct (on_market_data_fields s2 (tick_symbol t) (tick_price t)
              (tick_volume t) (tick_timestamp t)) as (_ & -> & _).
  split; [exact Hl|]. split.
  - rewrite !on_market_data_window, !decide_True by reflexivity. exact Hprices.
  - rewrite !on_market_data_ledger, Ho, Hp. reflexivity.
Qed.

Lemma outcomes_for_cons (sym : string) (t : PriceTick) (ticks : list PriceTick)
    (o : outcome) (os : list outcome) :
  outcomes_for sym (t :: ticks) (o :: os) =
    if decide (tick_symbol t = sym) then o :: outcomes_for sym ticks os
    else outcomes_for sym ticks os.
Proof.
  unfold outcomes_for. cbn [zip zip_with]. rewrite filter_cons. cbn [fst].
  destruct (decide (tick_symbol t = sym)); reflexivity.
Qed.

Lemma run_ledger (sym : string) (ticks : list PriceTick) :
  forall self,
    position (fst (run self ticks)) sym
      = position self sym + net_lots (outcomes_for sym ticks (snd (run self ticks))).
Proof.
  induction ticks as [|t ticks IH]; intros self.
  - simpl. unfold outcomes_for, net_lots. simpl. lia.
  - rewrite run_cons. cbn [fst snd]. rewrite IH, outcomes_for_cons.
    destruct (decide (tick_symbol t = sym)) as [<-|Hne].
    + unfold feed at 1. rewrite on_market_data_ledger. cbn [net_lots foldr].
      fold (feed self t). fold (net_lots (outcomes_for (tick_symbol t) ticks
             (snd (run (fst (feed self t)) ticks)))). lia.
    + destruct (feed_other_symbol self t sym Hne) as (_ & _ & ->). reflexivity.
Qed.

(** X7: from a fresh engine, after any ticks, a symbol's position is 100
    times the number of BUY signals minus the number of SELL signals that
    the calls for that symbol returned: the ledger and the emitted signals
    never drift apart, also across calls that raised. *)
Theorem position_matches_signals
    (capital : float) (ticks : list PriceTick) (sym : string) :
  let final := fst (run (__init__ capital) ticks) in
  let outcomes := snd (run (__init__ capital) ticks) in
  position final sym = net_lots (outcomes_for sym ticks outcomes).
Proof.
  cbv zeta. rewrite run_ledger. reflexivity.
Qed.

Lemma run_projection (sym : string) (ticks : list PriceTick) :
  forall s1 s2,
    agree sym s1 s2 ->
    outcomes_for sym ticks (snd (run s1 ticks)) = snd (run s2 (ticks_for sym ticks)) /\
    agree sym (fst (run s1 ticks)) (fst (run s2 (ticks_for sym ticks))).
Proof.
  induction ticks as [|t ticks IH]; intros s1 s2 H.
  - simpl. auto.
  - unfold ticks_for. rewrite filter_cons. fold (ticks_for sym ticks).
    rewrite run_cons. cbn [fst snd]. rewrite outcomes_for_cons.
    destruct (decide (tick_symbol t = sym)) as [E|Hne].
    + rewrite run_cons. cbn [fst snd]. subst sym.
      destruct (feed_own_symbol s1 s2 t H) as [Ho Ha].
      destruct (IH _ _ Ha) as [IH1 IH2].
      rewrite Ho, IH1. auto.
    + apply IH.
      destruct (feed_other_symbol s1 t sym Hne) as (Hl & Hw & Hp).
      destruct H as (Hl' & Hw' & Hp').
      unfold agree. rewrite Hl, Hw, Hp. auto.
Qed.

(** X8: the engine is one independent machine per symbol: in any stream,
    the outcomes of a symbol's calls, its final window and its final
    position are those of a fresh engine fed that symbol's ticks alone;
    ticks of other symbols, whatever their prices and outcomes, change
    none of them. *)
Theorem symbol_streams_independent
    (capital : float) (ticks : list PriceTick) (sym : string) :
  let mixed := run (__init__ capital) ticks in
  let alone := run (__init__ capital) (ticks_for sym ticks) in
  outcomes_for sym ticks (snd mixed) = snd alone /\
  window (fst mixed) sym = window (fst alone) sym /\
  position (fst mixed) sym = position (fst alone) sym.
Proof.
  cbv zeta.
  destruct (run_projection sym ticks (__init__ capital) (__init__ capital))
    as (Ho & _ & Hw & Hp).
  - repeat split.
  - auto.
Qed.

(** ** The risk gate at the edges *)

(** X9: the risk gate fails open on NaN: a NaN VaR, or a NaN capital,
    never halts trading, because the comparison of line 73 is false. *)
Theorem risk_gate_nan (self : LocoHFTStrategy) (var_95 exposure : float) :
  on_risk_update self nan exposure = (self, None, true) /\
  snd (on_risk_update (mkStrategy nan (positions self) (price_history self)
                         (lookback self)) var_95 exposure) = true.
Proof.
  unfold on_risk_update. cbn [capital].
  rewrite ltb_nan_r, mul_nan_l, ltb_nan_l. auto.
Qed.

(** X10: the risk gate is monotone in the VaR: once a VaR halts trading
    every strictly larger VaR halts it too, and a VaR that is allowed
    allows every strictly smaller one, whatever the exposures. *)
Theorem risk_gate_monotone
    (self : LocoHFTStrategy) (v v' exposure exposure' : float) :
  PrimFloat.ltb v v' = true ->
  (snd (on_risk_update self v exposure) = false ->
   snd (on_risk_update self v' exposure') = false) /\
  (snd (on_risk_update self v' exposure') = true ->
   snd (on_risk_update self v exposure) = true).
Proof.
  intros Hlt. unfold on_risk_update.
  destruct (PrimFloat.ltb (PrimFloat.mul (capital self) 0.02%float) v) eqn:H1;
    destruct (PrimFloat.ltb (PrimFloat.mul (capital self) 0.02%float) v') eqn:H2;
    cbn [snd]; auto.
  rewrite (ltb_trans _ _ _ H1 Hlt) in H2. discriminate.
Qed.

Lemma risk_gate_monotone_witness :
  snd (on_risk_update strategy 2500%float 0%float) = false /\
  snd (on_risk_update strategy 3000%float 1%float) = false.
Proof.
  assert (H : snd (on_risk_update strategy 2500%float 0%float) = false)
    by (vm_compute; reflexivity).
  split; [exact H|].
  apply (risk_gate_monotone strategy 2500%float 3000%float 0%float 1%float);
    [vm_compute; reflexivity | exact H].
Defined.

(** * The analytics helpers (src/python/analytics.py) *)

(** ** Exceptions of the other modules *)

(** Besides the arithmetic exceptions of [Py.exn], the other modules can
    fail on a global name that is not bound and on a dictionary key that
    is missing. *)
Inductive error : Type :=
| Builtin (e : exn)
| NameError (name : string)
| KeyError (key : string).

Inductive raised (A : Type) : Type :=
| Returns (a : A)
| Raises (e : error).
Arguments Returns {A} a.
Arguments Raises {A} e.

#[global] Instance raised_ret : MRet raised := fun _ a => Returns a.
#[global] Instance raised_bind : MBind raised := fun _ _ k r =>
  match r with
  | Returns a => k a
  | Raises e => Raises e
  end.
#[global] Instance raised_fmap : FMap raised := fun _ _ f r =>
  match r with
  | Returns a => Returns (f a)
  | Raises e => Raises e
  end.

(** An operation of [Py] used in the other modules. *)
Definition lift {A : Type} (r : result A) : raised A :=
  match r with
  | Ok a => Returns a
  | Raise e => Raises (Builtin e)
  end.

Module Analytics.

Section ModuleState.

(** Lines 5-9: whether [import numpy] succeeded when the module was
    loaded. *)
Variable NUMPY_AVAILABLE : bool.

(** Lines 17-18, the branch computed by numpy, taken as given. *)
Variable numpy_volatility : list float -> raised float.

(** [math.log] and [x ** 0.5] of the standard library, taken as given. *)
Variable math_log : float -> raised float.
Variable pow_half : float -> raised float.

(** The names the module binds at its top level: [np] when the import of
    line 6 succeeded, the flag of lines 7 and 9, and the two functions.
    The module has no [import math]. *)
Definition module_globals : list string :=
  (if NUMPY_AVAILABLE then ["np"] else [])
    ++ ["NUMPY_AVAILABLE"; "calculate_volatility"; "detect_regime_change"].

(** Looking up a module-level name that is not a built-in. *)
Definition load_global (name : string) : raised unit :=
  if bool_decide (name ∈ module_globals) then Returns tt
  else Raises (NameError name).

(** One element of the comprehension of line 21,
    [math.log(prices[i]/prices[i-1])]: the callee [math.log] is
    evaluated before its argument. *)
Definition log_return (cur prev : float) : raised float :=
  _ ← load_global "math";
  x ← lift (truediv cur prev);
  math_log x.

(** [calculate_volatility(prices)], lines 11-24.  The indices
    [range(1, len(prices))] pair every price but the first with its
    predecessor. *)
Definition calculate_volatility (prices : list float) : raised float :=
  if len prices <? 2 then Returns 0%float
  else if NUMPY_AVAILABLE then numpy_volatility prices
  else
    log_returns ← mapM (fun p => log_return (fst p) (snd p))
                       (zip (tail prices) prices);
    mean ← lift (truediv_int (sum log_returns) (len log_returns));
    squares ← lift (sum_sq_dev mean 0%float log_returns);
    variance ← lift (truediv_int squares (len log_returns));
    root ← pow_half variance;
    Returns (PrimFloat.mul root 15.8745%float).

End ModuleState.

(** [detect_regime_change(volatility_short, volatility_long)], lines
    26-33. *)
Definition detect_regime_change (volatility_short volatility_long : float)
    : raised string :=
  ratio ← (if PrimFloat.ltb 0%float volatility_long
           then lift (truediv volatility_short volatility_long)
           else Returns 1%float);
  if PrimFloat.ltb 1.5%float ratio then Returns "HIGH_VOL"%string
  else if PrimFloat.ltb ratio 0.5%float then Returns "LOW_VOL"%string
  else Returns "NORMAL"%string.

End Analytics.

(** ** Properties of the analytics helpers *)

Section AnalyticsFacts.

Import Analytics.

Lemma positive_shape (y : float) :
  PrimFloat.ltb 0%float y = true ->
  Prim2SF y = S754_infinity false \/ exists m e, Prim2SF y = S754_finite false m e.
Proof.
  rewrite FloatAxioms.ltb_spec. unfold SFltb.
  change (Prim2SF 0%float) with (S754_zero false).
  destruct (Prim2SF y) as [s|[]| |[] m e]; cbn; try discriminate; eauto.
Qed.

Lemma not_positive_shape (x : float) :
  PrimFloat.ltb 0%float x = false ->
  match Prim2SF x with
  | S754_infinity s | S754_finite s _ _ => s = true
  | _ => True
  end.
Proof.
  rewrite FloatAxioms.ltb_spec. unfold SFltb.
  change (Prim2SF 0%float) with (S754_zero false).
  destruct (Prim2SF x) as [s|[]| |[] m e]; cbn; try discriminate; auto.
Qed.

(** The guard of line 28 excludes the zero divisor. *)
Lemma positive_not_zero_divisor (y : float) :
  PrimFloat.ltb 0%float y = true -> PrimFloat.eqb y 0%float = false.
Proof.
  intros H. rewrite FloatAxioms.eqb_spec. unfold SFeqb.
  change (Prim2SF 0%float) with (S754_zero false).
  destruct (positive_shape y H) as [-> | (m & e & ->)]; reflexivity.
Qed.

Lemma truediv_positive (x y : float) :
  PrimFloat.ltb 0%float y = true -> truediv x y = Ok (PrimFloat.div x y).
Proof.
  intros H. unfold truediv. rewrite (positive_not_zero_divisor y H). reflexivity.
Qed.

(** Rounding gives a result of the sign asked for, or NaN. *)
Lemma binary_round_aux_sign_bit (sx : bool) (m e : Z) (l : location) :
  match binary_round_aux prec emax sx m e l with
  | S754_zero s | S754_infinity s | S754_finite s _ _ => s = sx
  | S754_nan => True
  end.
Proof.
  unfold binary_round_aux.
  destruct (shr_fexp prec emax m e l) as [mrs' e'].
  destruct (shr_fexp prec emax _ e' loc_Exact) as [mrs'' e''].
  destruct (shr_m mrs'') as [|p|p]; try exact I; try reflexivity.
  destruct (e'' <=? emax - prec); reflexivity.
Qed.

(** A quotient by a positive divisor is positive only if the dividend
    is. *)
Lemma div_positive_dividend (x y c : float) :
  PrimFloat.ltb 0%float y = true ->
  PrimFloat.ltb 0%float c = true ->
  PrimFloat.ltb c (PrimFloat.div x y) = true ->
  PrimFloat.ltb 0%float x = true.
Proof.
  intros Hy Hc Hq.
  destruct (PrimFloat.ltb 0%float x) eqn:Hx; [reflexivity|exfalso].
  apply not_positive_shape in Hx.
  rewrite FloatAxioms.ltb_spec, FloatAxioms.div_spec in Hq.
  unfold SFltb, SF64div in Hq.
  assert (Hneg : match SFdiv prec emax (Prim2SF x) (Prim2SF y) with
                 | S754_infinity s | S754_finite s _ _ => s = true
                 | _ => True
                 end).
  { destruct (positive_shape y Hy) as [-> | (my & ey & ->)];
      destruct (Prim2SF x) as [s|s| |s mx ex]; cbn [SFdiv xorb]; try exact I;
      try (subst s; reflexivity).
    subst s. destruct (SFdiv_core_binary _ _ _ _ _ _) as [[mz ez] lz].
    cbn [xorb].
    pose proof (binary_round_aux_sign_bit true mz ez lz) as Hs.
    destruct (binary_round_aux prec emax true mz ez lz); auto. }
  revert Hneg Hq.
  destruct (positive_shape c Hc) as [-> | (mc & ec & ->)];
    destruct (SFdiv prec emax (Prim2SF x) (Prim2SF y)) as [s|s| |s m e];
    cbn; intros Hneg; try subst s; discriminate.
Qed.

(** X11: the regime detector never raises: the division of line 28 is made
    only by a strictly positive long volatility, so whatever the two
    floats (zeros, negatives, infinities, NaN) the result is one of the
    three labels. *)
Theorem detect_regime_change_returns (volatility_short volatility_long : float) :
  exists label,
    detect_regime_change volatility_short volatility_long = Returns label /\
    label ∈ ["HIGH_VOL"; "LOW_VOL"; "NORMAL"]%string.
Proof.
  unfold detect_regime_change.
  destruct (PrimFloat.ltb 0%float volatility_long) eqn:Hl.
  - rewrite (truediv_positive _ _ Hl). cbn.
    destruct (PrimFloat.ltb 1.5%float _); [eexists; split; [reflexivity|set_solver]|].
    destruct (PrimFloat.ltb _ 0.5%float); eexists; (split; [reflexivity|set_solver]).
  - eexists; split; [vm_compute; reflexivity|set_solver].
Qed.

(** X12: a long volatility that is not strictly positive (zero, negative
    or NaN), and also a short volatility that is NaN, is reported as
    NORMAL: degenerate inputs are never flagged as a regime change. *)
Theorem detect_regime_change_degenerate (volatility_short volatility_long : float) :
  PrimFloat.ltb 0%float volatility_long = false \/
    PrimFloat.is_nan volatility_short = true ->
  detect_regime_change volatility_short volatility_long = Returns "NORMAL"%string.
Proof.
  unfold detect_regime_change.
  intros [Hl | Hn].
  - rewrite Hl. reflexivity.
  - apply is_nan_spec in Hn.
    assert (volatility_short = nan) as -> by (apply Prim2SF_inj; exact Hn).
    destruct (PrimFloat.ltb 0%float volatility_long) eqn:Hl; [|reflexivity].
    rewrite (truediv_positive _ _ Hl), div_nan_l. reflexivity.
Qed.

Lemma detect_regime_change_degenerate_witness :
  detect_regime_change 0.3%float 0%float = Returns "NORMAL"%string /\
  detect_regime_change nan 0.2%float = Returns "NORMAL"%string /\
  detect_regime_change 0.3%float (-0.1)%float = Returns "NORMAL"%string.
Proof.
  split; [|split].
  - apply (detect_regime_change_degenerate 0.3%float 0%float).
    left. vm_compute. reflexivity.
  - apply (detect_regime_change_degenerate nan 0.2%float).
    right. vm_compute. reflexivity.
  - apply (detect_regime_change_degenerate 0.3%float (-0.1)%float).
    left. vm_compute. reflexivity.
Defined.

(** X13: HIGH_VOL is reported only when both volatilities are strictly
    positive and the rounded quotient short / long exceeds 1.5. *)
Theorem high_vol_needs_positive (volatility_short volatility_long : float) :
  detect_regime_change volatility_short volatility_long = Returns "HIGH_VOL"%string ->
  PrimFloat.ltb 0%float volatility_short = true /\
  PrimFloat.ltb 0%float volatility_long = true /\
  PrimFloat.ltb 1.5%float (PrimFloat.div volatility_short volatility_long) = true.
Proof.
  unfold detect_regime_change.
  destruct (PrimFloat.ltb 0%float volatility_long) eqn:Hl; [|discriminate].
  rewrite (truediv_positive _ _ Hl). cbn.
  destruct (PrimFloat.ltb 1.5%float _) eqn:Hr.
  - intros _. split; [|auto].
    apply (div_positive_dividend _ volatility_long 1.5%float); auto.
  - destruct (PrimFloat.ltb _ 0.5%float); discriminate.
Qed.

Lemma high_vol_needs_positive_witness :
  PrimFloat.ltb 0%float 0.4%float = true /\ PrimFloat.ltb 0%float 0.2%float = true.
Proof.
  destruct (high_vol_needs_positive 0.4%float 0.2%float) as (H1 & H2 & _).
  - vm_compute. reflexivity.
  - auto.
Defined.

(** X14: when numpy is not installed the pure-Python branch cannot run:
    the module never imports [math], so for two or more prices the first
    element of the comprehension of line 21 raises NameError whatever the
    prices; only the guard of line 13 returns, with 0.0. *)
Theorem calculate_volatility_without_numpy
    (numpy_volatility : list float -> raised float)
    (math_log pow_half : float -> raised float) (prices : list float) :
  calculate_volatility false numpy_volatility math_log pow_half prices =
    if len prices <? 2 then Returns 0%float else Raises (NameError "math").
Proof.
  unfold calculate_volatility.
  destruct (Z.ltb_spec (len prices) 2) as [Hlt|Hge]; [reflexivity|].
  destruct prices as [|p0 [|p1 prices]]; unfold len in Hge; simpl in Hge; try lia.
  reflexivity.
Qed.

End AnalyticsFacts.

(** * The recommendation engine (src/python/recommendations.py) *)

Module Recommendations.

(** ** The two enumerations, lines 13-25 *)

Inductive InvestmentGoal : Set :=
| FIXED_INCOME
| BALANCED
| GROWTH
| AGGRESSIVE_GROWTH
| DIVIDEND
| CAPITAL_PRESERVATION.

Inductive TimeHorizon : Set :=
| SHORT_TERM
| MEDIUM_TERM
| LONG_TERM
| VERY_LONG_TERM.

#[global] Instance InvestmentGoal_eq_dec : EqDecision InvestmentGoal.
Proof. solve_decision. Defined.
#[global] Instance TimeHorizon_eq_dec : EqDecision TimeHorizon.
Proof. solve_decision. Defined.

(** The members in definition order, and the [.value] of each. *)
Definition InvestmentGoal_members : list InvestmentGoal :=
  [FIXED_INCOME; BALANCED; GROWTH; AGGRESSIVE_GROWTH; DIVIDEND; CAPITAL_PRESERVATION].

Definition TimeHorizon_members : list TimeHorizon :=
  [SHORT_TERM; MEDIUM_TERM; LONG_TERM; VERY_LONG_TERM].

Definition goal_value (goal : InvestmentGoal) : string :=
  match goal with
  | FIXED_INCOME => "fixed_income"
  | BALANCED => "balanced"
  | GROWTH => "growth"
  | AGGRESSIVE_GROWTH => "aggressive_growth"
  | DIVIDEND => "dividend"
  | CAPITAL_PRESERVATION => "capital_preservation"
  end%string.

Definition horizon_value (horizon : TimeHorizon) : string :=
  match horizon with
  | SHORT_TERM => "short_term"
  | MEDIUM_TERM => "medium_term"
  | LONG_TERM => "long_term"
  | VERY_LONG_TERM => "very_long"
  end%string.

(** [InvestmentGoal(s)] and [TimeHorizon(s)]: the member whose value is
    [s]; a string that is no member's value raises ValueError. *)
Definition by_value {E : Type} (value : E -> string) (members : list E)
    (s : string) : raised E :=
  match list_find (fun m => value m = s) members with
  | Some (_, m) => Returns m
  | None => Raises (Builtin ValueError)
  end.

Definition InvestmentGoal_of (s : string) : raised InvestmentGoal :=
  by_value goal_value InvestmentGoal_members s.

Definition TimeHorizon_of (s : string) : raised TimeHorizon :=
  by_value horizon_value TimeHorizon_members s.

(** ** The dataclasses, lines 27-55 *)

(** The allocation is built from int literals, so its fields hold
    Python ints. *)
Record AssetAllocation : Type := mkAssetAllocation {
  stocks : Z;
  bonds : Z;
  cash : Z;
  alternatives : Z
}.

Record Recommendation : Type := mkRecommendation {
  symbol : string;
  name : string;
  type : string;
  allocation_percent : Z;
  rationale : string;
  risk_level : string;
  expected_return : string;
  timeframe : string;
  confidence : float
}.

Record InvestmentPlan : Type := mkInvestmentPlan {
  goal : string;
  time_horizon : string;
  risk_profile : string;
  total_expected_return : string;
  allocation : AssetAllocation;
  recommendations : list Recommendation;
  strategy_summary : string;
  warnings : list string
}.

(** ** The class attribute MARKET_DATA, lines 61-78 *)

(** One inner dictionary, with its five keys. *)
Record MarketEntry : Type := mkMarketEntry {
  md_name : string;
  md_price : float;
  md_volatility : float;
  md_dividend_yield : float;
  md_sector : string
}.

Definition MARKET_DATA : gmap string MarketEntry :=
  list_to_map [
    ("AAPL", mkMarketEntry "Apple Inc."
       175.5%float 0.25%float 0.5%float "Technology");
    ("MSFT", mkMarketEntry "Microsoft Corp."
       380.25%float 0.22%float 0.7%float "Technology");
    ("JNJ", mkMarketEntry "Johnson & Johnson"
       155.8%float 0.15%float 3.0%float "Healthcare");
    ("PG", mkMarketEntry "Procter & Gamble"
       158.4%float 0.16%float 2.4%float "Consumer");
    ("VTI", mkMarketEntry "Vanguard Total Stock Market ETF"
       245.6%float 0.18%float 1.4%float "Diversified");
    ("BND", mkMarketEntry "Vanguard Total Bond Market ETF"
       72.5%float 0.06%float 4.5%float "Bonds");
    ("VNQ", mkMarketEntry "Vanguard Real Estate ETF"
       85.2%float 0.2%float 4.2%float "REIT");
    ("VEA", mkMarketEntry "Vanguard Developed Markets ETF"
       48.3%float 0.19%float 3.1%float "International");
    ("VOO", mkMarketEntry "Vanguard S&P 500 ETF"
       420.15%float 0.17%float 1.3%float "Diversified");
    ("SCHD", mkMarketEntry "Schwab US Dividend Equity ETF"
       78.9%float 0.16%float 3.5%float "Dividend");
    ("TLT", mkMarketEntry "iShares 20+ Year Treasury Bond ETF"
       92.4%float 0.14%float 4.8%float "Bonds");
    ("SHY", mkMarketEntry "iShares 1-3 Year Treasury Bond ETF"
       82.1%float 0.02%float 4.2%float "Bonds");
    ("GLD", mkMarketEntry "SPDR Gold Shares"
       185.3%float 0.15%float 0.0%float "Commodity");
    ("QQQ", mkMarketEntry "Invesco QQQ Trust"
       390.8%float 0.23%float 0.6%float "Technology");
    ("ARKK", mkMarketEntry "ARK Innovation ETF"
       48.5%float 0.45%float 0.0%float "Growth");
    ("VT", mkMarketEntry "Vanguard Total World Stock ETF"
       108.4%float 0.18%float 2.0%float "Diversified")
  ]%string.

(** [d[key]] on a dictionary: a missing key raises KeyError. *)
Definition subscript {V : Type} (d : gmap string V) (key : string) : raised V :=
  match d !! key with
  | Some v => Returns v
  | None => Raises (KeyError key)
  end.

(** ** calculate_allocation, lines 105-147 *)

(** The rows of the two tables have the keys stocks, bonds, cash and
    alternatives; every member of the enumeration has a row, so the
    defaults of the two [.get] calls are never used. *)
Definition allocations (goal : InvestmentGoal) : AssetAllocation :=
  match goal with
  | CAPITAL_PRESERVATION => mkAssetAllocation 20 60 15 5
  | FIXED_INCOME => mkAssetAllocation 30 55 5 10
  | DIVIDEND => mkAssetAllocation 60 25 5 10
  | BALANCED => mkAssetAllocation 60 30 5 5
  | GROWTH => mkAssetAllocation 80 10 0 10
  | AGGRESSIVE_GROWTH => mkAssetAllocation 90 0 0 10
  end.

Definition horizon_adjustments (horizon : TimeHorizon) : AssetAllocation :=
  match horizon with
  | SHORT_TERM => mkAssetAllocation (-15) 10 5 0
  | MEDIUM_TERM => mkAssetAllocation 0 0 0 0
  | LONG_TERM => mkAssetAllocation 5 (-5) 0 0
  | VERY_LONG_TERM => mkAssetAllocation 10 (-10) 0 0
  end.

(** [max(0, min(100, x))] *)
Definition clamp (x : Z) : Z := Z.max 0 (Z.min 100 x).

Definition calculate_allocation (goal : InvestmentGoal) (horizon : TimeHorizon)
    : AssetAllocation :=
  let base := allocations goal in
  let adj := horizon_adjustments horizon in
  {| stocks := clamp (stocks base + stocks adj);
     bonds := clamp (bonds base + bonds adj);
     cash := clamp (cash base + cash adj);
     alternatives := clamp (alternatives base + alternatives adj) |}.

(** ** The six lists of recommendations, lines 214-609 *)

(** One [Recommendation(symbol=s, name=self.MARKET_DATA[s]["name"], ...)]:
    in every such call the key looked up is the symbol itself. *)
Definition listed (symbol type : string) (allocation_percent : Z)
    (rationale risk_level expected_return timeframe : string)
    (confidence : float) : raised Recommendation :=
  entry ← subscript MARKET_DATA symbol;
  Returns (mkRecommendation symbol (md_name entry) type allocation_percent
             rationale risk_level expected_return timeframe confidence).

(** [recs.append(r)], where building [r] may raise. *)
Definition append (recs : list Recommendation) (r : raised Recommendation)
    : raised (list Recommendation) :=
  x ← r; Returns (recs ++ [x]).

(** Lines 214-277. *)
Definition _fixed_income_recommendations (allocation : AssetAllocation)
    (horizon : TimeHorizon) : raised (list Recommendation) :=
  let recs : list Recommendation := [] in
  recs ← (if decide (horizon = SHORT_TERM) then
        recs ← append recs
            (listed "SHY" "ETF - Short Term Treasury" 30
                  "Short-term treasuries provide stability and liquidity for near-term needs"
                  "Very Low" "4-4.5%"
                  "1-3 years" 0.92%float);
        Returns recs
      else
        recs ← append recs
            (listed "TLT" "ETF - Long Term Treasury" 25
                  "Long-term bonds offer higher yields and price appreciation when rates fall"
                  "Low to Moderate" "4.5-5.5%"
                  "5-10 years" 0.88%float);
        recs ← append recs
            (listed "BND" "ETF - Total Bond Market" 20
                  "Diversified bond exposure across government and corporate bonds"
                  "Low" "4-5%"
                  "3-7 years" 0.9%float);
        Returns recs);
  recs ← append recs
      (listed "SCHD" "ETF - Dividend Focused" 20
            "Quality dividend-paying stocks with consistent payout history"
            "Low to Moderate" "5-7% (including dividends)"
            "3-5 years" 0.85%float);
  recs ← append recs
      (listed "VNQ" "ETF - Real Estate" 10
            "REITs provide income through property rents and potential appreciation"
            "Moderate" "5-7%"
            "5+ years" 0.8%float);
  Returns recs.

(** Lines 279-339. *)
Definition _dividend_recommendations (allocation : AssetAllocation)
    (horizon : TimeHorizon) : raised (list Recommendation) :=
  let recs : list Recommendation := [] in
  recs ← append recs
      (listed "SCHD" "ETF - Dividend Equity" 30
            "Core holding for dividend growth with quality screening"
            "Low to Moderate" "5-7%"
            "Long-term" 0.88%float);
  recs ← append recs
      (listed "JNJ" "Stock - Healthcare" 20
            "Dividend aristocrat with 60+ years of increasing dividends"
            "Low" "6-8%"
            "Long-term" 0.9%float);
  recs ← append recs
      (listed "PG" "Stock - Consumer Staples" 20
            "Defensive consumer stock with reliable dividend growth"
            "Low" "6-7%"
            "Long-term" 0.88%float);
  recs ← append recs
      (listed "VNQ" "ETF - REITs" 15
            "Real estate exposure with high dividend yield"
            "Moderate" "5-7%"
            "5+ years" 0.82%float);
  recs ← append recs
      (listed "BND" "ETF - Bonds" 15
            "Stability and income through diversified bonds"
            "Low" "4-5%"
            "Medium-term" 0.9%float);
  Returns recs.

(** Lines 341-412. *)
Definition _growth_recommendations (allocation : AssetAllocation)
    (horizon : TimeHorizon) : raised (list Recommendation) :=
  let recs : list Recommendation := [] in
  recs ← append recs
      (listed "VTI" "ETF - Total US Stock Market" 35
            "Broad US market exposure capturing overall economic growth"
            "Moderate" "7-10%"
            "Long-term" 0.9%float);
  recs ← append recs
      (listed "QQQ" "ETF - Nasdaq 100" 20
            "Tech-heavy growth exposure with leading innovative companies"
            "Moderate to High" "8-12%"
            "Long-term" 0.85%float);
  recs ← append recs
      (listed "MSFT" "Stock - Technology" 15
            "Leading tech company with cloud growth and AI positioning"
            "Moderate" "10-15%"
            "3-5 years" 0.87%float);
  recs ← append recs
      (listed "AAPL" "Stock - Technology" 10
            "Strong brand, cash generation, and services growth"
            "Moderate" "8-12%"
            "Long-term" 0.85%float);
  recs ← append recs
      (listed "VEA" "ETF - International Developed" 10
            "International diversification with growth potential"
            "Moderate" "6-9%"
            "Long-term" 0.82%float);
  recs ← append recs
      (listed "BND" "ETF - Bonds" 10
            "Stability buffer for portfolio volatility"
            "Low" "4-5%"
            "Medium-term" 0.88%float);
  Returns recs.

(** Lines 414-485. *)
Definition _aggressive_growth_recommendations (allocation : AssetAllocation)
    (horizon : TimeHorizon) : raised (list Recommendation) :=
  let recs : list Recommendation := [] in
  recs ← append recs
      (listed "ARKK" "ETF - Innovation" 20
            "High-growth disruptive innovation in genomics, AI, and fintech"
            "High" "15-25% (very volatile)"
            "5+ years" 0.7%float);
  recs ← append recs
      (listed "QQQ" "ETF - Nasdaq 100" 25
            "Concentrated tech exposure for maximum growth potential"
            "High" "10-15%"
            "Long-term" 0.82%float);
  recs ← append recs
      (listed "VTI" "ETF - Total Stock Market" 25
            "Broad market foundation with growth tilt"
            "Moderate to High" "8-12%"
            "Long-term" 0.85%float);
  recs ← append recs
      (listed "MSFT" "Stock - Technology" 15
            "AI leader with strong competitive position"
            "Moderate" "12-18%"
            "3-5 years" 0.85%float);
  recs ← append recs
      (listed "GLD" "ETF - Gold" 10
            "Inflation hedge and portfolio diversifier"
            "Moderate" "3-6%"
            "Long-term" 0.75%float);
  recs ← append recs
      (listed "VNQ" "ETF - Real Estate" 5
            "Real estate exposure with growth potential"
            "Moderate to High" "6-9%"
            "5+ years" 0.78%float);
  Returns recs.

(** Lines 487-547. *)
Definition _balanced_recommendations (allocation : AssetAllocation)
    (horizon : TimeHorizon) : raised (list Recommendation) :=
  let recs : list Recommendation := [] in
  recs ← append recs
      (listed "VOO" "ETF - S&P 500" 35
            "Core US large-cap exposure for growth"
            "Moderate" "7-10%"
            "Long-term" 0.92%float);
  recs ← append recs
      (listed "VEA" "ETF - International" 15
            "International diversification"
            "Moderate" "6-9%"
            "Long-term" 0.85%float);
  recs ← append recs
      (listed "BND" "ETF - Total Bond Market" 25
            "Stability and income generation"
            "Low" "4-5%"
            "Medium-term" 0.9%float);
  recs ← append recs
      (listed "SCHD" "ETF - Dividend Equity" 15
            "Quality dividend stocks for income and growth"
            "Low to Moderate" "6-8%"
            "Long-term" 0.87%float);
  recs ← append recs
      (listed "VNQ" "ETF - REITs" 10
            "Real estate for diversification and income"
            "Moderate" "5-7%"
            "5+ years" 0.82%float);
  Returns recs.

(** Lines 549-609. *)
Definition _preservation_recommendations (allocation : AssetAllocation)
    (horizon : TimeHorizon) : raised (list Recommendation) :=
  let recs : list Recommendation := [] in
  recs ← append recs
      (listed "SHY" "ETF - Short-Term Treasury" 40
            "Maximum safety with government backing"
            "Very Low" "4-4.5%"
            "Short-term" 0.95%float);
  recs ← append recs
      (listed "BND" "ETF - Total Bond Market" 30
            "Diversified bond exposure for stability"
            "Low" "4-5%"
            "Medium-term" 0.9%float);
  recs ← append recs
      (listed "VT" "ETF - Total World Stock" 15
            "Minimal equity exposure for inflation protection"
            "Moderate" "5-7%"
            "Long-term" 0.85%float);
  recs ← append recs
      (listed "GLD" "ETF - Gold" 10
            "Safe haven asset for portfolio protection"
            "Moderate" "3-5%"
            "Long-term" 0.78%float);
  recs ← append recs
      (listed "PG" "Stock - Consumer Staples" 5
            "Defensive stock with stable business"
            "Low" "5-6%"
            "Long-term" 0.88%float);
  Returns recs.

(** ** generate_recommendations, lines 149-212 *)

Import Stdlib.Strings.Ascii.

(** [s.replace("_", " ")] *)
Fixpoint replace_underscores (s : string) : string :=
  match s with
  | EmptyString => EmptyString
  | String c s' =>
      String (if Stdlib.Strings.Ascii.eqb c "_"%char then " "%char else c) (replace_underscores s')
  end.

Definition is_lower (c : ascii) : bool :=
  ((97 <=? N_of_ascii c) && (N_of_ascii c <=? 122))%N.

Definition is_upper (c : ascii) : bool :=
  ((65 <=? N_of_ascii c) && (N_of_ascii c <=? 90))%N.

Definition upper (c : ascii) : ascii :=
  if is_lower c then ascii_of_N (N_of_ascii c - 32) else c.

Definition lower (c : ascii) : ascii :=
  if is_upper c then ascii_of_N (N_of_ascii c + 32) else c.

(** [s.title()] on ASCII text, which the values of the enumerations
    are: a letter that follows a letter is lowered, any other letter is
    raised. *)
Fixpoint title_from (previous_is_cased : bool) (s : string) : string :=
  match s with
  | EmptyString => EmptyString
  | String c s' =>
      if is_lower c then
        String (if previous_is_cased then c else upper c) (title_from true s')
      else if is_upper c then
        String (if previous_is_cased then lower c else c) (title_from true s')
      else String c (title_from false s')
  end.

Definition title (s : string) : string := title_from false s.

(** What the chain of lines 158-195 leaves in [recommendations],
    [risk_profile], [expected_return], [strategy] and [warnings]. *)
Definition goal_branch (goal : InvestmentGoal) (horizon : TimeHorizon)
    (allocation : AssetAllocation)
    : raised (list Recommendation * string * string * string * list string) :=
  let warnings : list string := [] in
  if decide (goal = FIXED_INCOME) then
    recommendations ← _fixed_income_recommendations allocation horizon;
    Returns (recommendations,
             "Conservative"%string,
             "4-6% annually"%string,
             "Focus on high-quality bonds, dividend stocks, and income-generating assets. Prioritize stability and regular income over growth."%string,
             warnings)
  else if decide (goal = DIVIDEND) then
    recommendations ← _dividend_recommendations allocation horizon;
    Returns (recommendations,
             "Conservative to Moderate"%string,
             "5-7% annually (including dividends)"%string,
             "Build a diversified portfolio of dividend aristocrats and dividend-focused ETFs. Reinvest dividends for compounding growth."%string,
             warnings)
  else if decide (goal = CAPITAL_PRESERVATION) then
    recommendations ← _preservation_recommendations allocation horizon;
    Returns (recommendations,
             "Very Conservative"%string,
             "2-4% annually"%string,
             "Prioritize capital safety with high-quality short-term bonds and stable value investments. Focus on preserving purchasing power."%string,
             (warnings ++ [
         "Returns may not keep pace with inflation in high-inflation environments"%string]))
  else if decide (goal = GROWTH) then
    recommendations ← _growth_recommendations allocation horizon;
    Returns (recommendations,
             "Moderate to Aggressive"%string,
             "7-10% annually"%string,
             "Invest in high-quality growth stocks and diversified equity ETFs. Accept short-term volatility for long-term appreciation."%string,
             warnings)
  else if decide (goal = AGGRESSIVE_GROWTH) then
    recommendations ← _aggressive_growth_recommendations allocation horizon;
    Returns (recommendations,
             "Aggressive"%string,
             "10-15% annually (with higher volatility)"%string,
             "Focus on high-growth sectors, emerging technologies, and disruptive innovation. High risk/high reward approach."%string,
             ((warnings ++ [
         "Expect significant volatility - only suitable for investors with high risk tolerance"%string]) ++ [
         "May experience losses of 30-50% in market downturns"%string]))
  else
    recommendations ← _balanced_recommendations allocation horizon;
    Returns (recommendations,
             "Moderate"%string,
             "6-8% annually"%string,
             "Maintain a balanced mix of growth stocks and stable income assets. Regular rebalancing to maintain target allocation."%string,
             warnings).

Definition generate_recommendations (goal : InvestmentGoal)
    (horizon : TimeHorizon) (capital : float) : raised InvestmentPlan :=
  let allocation := calculate_allocation goal horizon in
  branch ← goal_branch goal horizon allocation;
  let '(recommendations, risk_profile, expected_return, strategy, warnings) :=
    branch in
  let '(strategy, warnings) :=
    if decide (horizon = SHORT_TERM) then
      (strategy,
       warnings ++ [
          "Short-term investing has limited growth potential - consider extending timeframe for better results"%string])
    else if decide (horizon = VERY_LONG_TERM) then
      (strategy +:+
         " With your long time horizon, you can ride out market cycles and benefit from compound growth.",
       warnings)
    else (strategy, warnings) in
  Returns {| goal := title (replace_underscores (goal_value goal));
             time_horizon := title (replace_underscores (horizon_value horizon));
             risk_profile := risk_profile;
             total_expected_return := expected_return;
             allocation := allocation;
             recommendations := recommendations;
             strategy_summary := strategy;
             warnings := warnings |}.

(** ** The entry points, lines 613-685 *)

(** [get_investment_recommendations(goal_str, horizon_str, capital)] up
    to the dictionary [result] of lines 632-659, which copies the plan
    field by field and which line 661 serialises: each [try] catches
    ValueError only. *)
Definition get_investment_recommendations (goal_str horizon_str : string)
    (capital : float) : raised InvestmentPlan :=
  goal ← match InvestmentGoal_of goal_str with
         | Raises (Builtin ValueError) => Returns BALANCED
         | r => r
         end;
  horizon ← match TimeHorizon_of horizon_str with
            | Raises (Builtin ValueError) => Returns MEDIUM_TERM
            | r => r
            end;
  generate_recommendations goal horizon capital.

(** The list [goals] of lines 666-673, which the function serialises; each
    dictionary keeps its keys in order. *)
Definition get_available_goals : list (list (string * string)) := [
  [("id", "capital_preservation");
   ("name", "Capital Preservation");
   ("description", "Protect my money with minimal risk")];
  [("id", "fixed_income");
   ("name", "Fixed Income");
   ("description", "Generate steady income from dividends and interest")];
  [("id", "dividend");
   ("name", "Dividend Growth");
   ("description", "Build portfolio for regular dividend income")];
  [("id", "balanced");
   ("name", "Balanced Growth");
   ("description", "Balance growth and income with moderate risk")];
  [("id", "growth");
   ("name", "Growth");
   ("description", "Focus on capital appreciation")];
  [("id", "aggressive_growth");
   ("name", "Aggressive Growth");
   ("description", "Maximize returns with higher risk tolerance")]
]%string.

(** The list [timeframes] of lines 679-684, which the function serialises; each
    dictionary keeps its keys in order. *)
Definition get_available_timeframes : list (list (string * string)) := [
  [("id", "short_term");
   ("name", "Short Term");
   ("description", "Less than 1 year");
   ("suitable_for", "Capital preservation, emergency funds")];
  [("id", "medium_term");
   ("name", "Medium Term");
   ("description", "1-3 years");
   ("suitable_for", "Fixed income, balanced portfolios")];
  [("id", "long_term");
   ("name", "Long Term");
   ("description", "3-10 years");
   ("suitable_for", "Growth, dividend investing")];
  [("id", "very_long");
   ("name", "Very Long Term");
   ("description", "10+ years");
   ("suitable_for", "Aggressive growth, retirement planning")]
]%string.

(** [d[key]] on one of these dictionaries. *)
Definition field (key : string) (d : list (string * string)) : option string :=
  (fun found => snd (snd found)) <$> list_find (fun kv => fst kv = key) d.

End Recommendations.

(** ** Properties of the recommendation engine *)

Section RecommendationFacts.

Import Recommendations.

(** The sum of the [allocation_percent] fields of a list. *)
Definition total_percent (recs : list Recommendation) : Z :=
  foldr Z.add 0 (map allocation_percent recs).

(** A recommendation whose symbol is a key of MARKET_DATA and whose name
    is the one the table gives, with a percentage in (0, 100] and a
    confidence in [0, 1]. *)
Definition well_formed (r : Recommendation) : Prop :=
  md_name <$> MARKET_DATA !! symbol r = Some (name r) /\
  0 < allocation_percent r <= 100 /\
  PrimFloat.leb 0%float (confidence r) = true /\
  PrimFloat.leb (confidence r) 1%float = true.

#[local] Instance well_formed_dec (r : Recommendation) : Decision (well_formed r).
Proof. unfold well_formed. apply _. Defined.

Lemma clamp_bounds (x : Z) : 0 <= clamp x <= 100.
Proof. unfold clamp. lia. Qed.

Lemma by_value_returns {E : Type} (value : E -> string) (members : list E)
    (s : string) (m : E) :
  by_value value members s = Returns m -> value m = s /\ m ∈ members.
Proof.
  unfold by_value.
  destruct (list_find _ members) as [[i m']|] eqn:F; [|discriminate].
  intros [= <-]. apply list_find_Some in F as (Hi & Hv & _).
  split; [exact Hv|]. exact (list_elem_of_lookup_2 _ _ _ Hi).
Qed.

Lemma by_value_raises {E : Type} (value : E -> string) (members : list E)
    (s : string) (e : error) :
  by_value value members s = Raises e ->
  e = Builtin ValueError /\ forall m, m ∈ members -> value m <> s.
Proof.
  unfold by_value.
  destruct (list_find _ members) as [[i m']|] eqn:F; [discriminate|].
  intros [= <-]. split; [reflexivity|].
  apply list_find_None in F. rewrite Forall_forall in F. exact F.
Qed.

Lemma goal_is_member (g : InvestmentGoal) : g ∈ InvestmentGoal_members.
Proof. destruct g; unfold InvestmentGoal_members; set_solver. Qed.

Lemma horizon_is_member (h : TimeHorizon) : h ∈ TimeHorizon_members.
Proof. destruct h; unfold TimeHorizon_members; set_solver. Qed.

(** Every goal and horizon gives a plan: none of the table look-ups
    fails. *)
Lemma generate_recommendations_ok (g : InvestmentGoal) (h : TimeHorizon)
    (capital : float) :
  exists plan, generate_recommendations g h capital = Returns plan.
Proof. destruct g, h; eexists; vm_compute; reflexivity. Qed.

Lemma InvestmentGoal_of_unknown (goal_str : string) :
  (forall g, goal_value g <> goal_str) ->
  InvestmentGoal_of goal_str = Raises (Builtin ValueError).
Proof.
  intros H. destruct (InvestmentGoal_of goal_str) as [g|e] eqn:E.
  - apply by_value_returns in E as [E _]. destruct (H g E).
  - apply by_value_raises in E as [-> _]. reflexivity.
Qed.

Lemma TimeHorizon_of_unknown (horizon_str : string) :
  (forall h, horizon_value h <> horizon_str) ->
  TimeHorizon_of horizon_str = Raises (Builtin ValueError).
Proof.
  intros H. destruct (TimeHorizon_of horizon_str) as [h|e] eqn:E.
  - apply by_value_returns in E as [E _]. destruct (H h E).
  - apply by_value_raises in E as [-> _]. reflexivity.
Qed.

(** X15: every share of a computed allocation lies between 0 and 100, but
    the four shares do not always total 100: clamping the bond share at 0
    makes an aggressive-growth allocation total 105 for the long horizon
    and 110 for the very long one; every other pair of goal and horizon
    totals exactly 100. *)
Theorem calculate_allocation_total (goal : InvestmentGoal) (horizon : TimeHorizon) :
  let a := calculate_allocation goal horizon in
  (0 <= stocks a <= 100 /\ 0 <= bonds a <= 100 /\
   0 <= cash a <= 100 /\ 0 <= alternatives a <= 100) /\
  stocks a + bonds a + cash a + alternatives a =
    match goal, horizon with
    | AGGRESSIVE_GROWTH, LONG_TERM => 105
    | AGGRESSIVE_GROWTH, VERY_LONG_TERM => 110
    | _, _ => 100
    end.
Proof.
  cbv zeta. split.
  - unfold calculate_allocation. cbn [stocks bonds cash alternatives].
    repeat split; apply clamp_bounds.
  - destruct goal, horizon; reflexivity.
Qed.

(** X16: for every goal a longer horizon never lowers the stock share and
    never raises the bond share or the cash share, and the share of
    alternatives does not depend on the horizon. *)
Theorem longer_horizon_more_stocks (goal : InvestmentGoal) :
  let a := calculate_allocation goal in
  (stocks (a SHORT_TERM) <= stocks (a MEDIUM_TERM) <= stocks (a LONG_TERM) /\
   stocks (a LONG_TERM) <= stocks (a VERY_LONG_TERM)) /\
  (bonds (a VERY_LONG_TERM) <= bonds (a LONG_TERM) <= bonds (a MEDIUM_TERM) /\
   bonds (a MEDIUM_TERM) <= bonds (a SHORT_TERM)) /\
  (cash (a VERY_LONG_TERM) <= cash (a LONG_TERM) <= cash (a MEDIUM_TERM) /\
   cash (a MEDIUM_TERM) <= cash (a SHORT_TERM)) /\
  (forall h, alternatives (a h) = alternatives (a MEDIUM_TERM)).
Proof.
  cbv zeta. destruct goal; vm_compute;
    repeat split; try discriminate; intros []; reflexivity.
Qed.

(** X17: the two enumerations round-trip through their values: the value
    of a member parses back to that member, a string parses only to the
    member whose value it is, and the only exception of parsing is
    ValueError, for a string that is no member's value. *)
Theorem enum_values_round_trip :
  (forall g, InvestmentGoal_of (goal_value g) = Returns g) /\
  (forall h, TimeHorizon_of (horizon_value h) = Returns h) /\
  (forall s g, InvestmentGoal_of s = Returns g -> s = goal_value g) /\
  (forall s h, TimeHorizon_of s = Returns h -> s = horizon_value h) /\
  (forall s e, InvestmentGoal_of s = Raises e ->
     e = Builtin ValueError /\ forall g, goal_value g <> s) /\
  (forall s e, TimeHorizon_of s = Raises e ->
     e = Builtin ValueError /\ forall h, horizon_value h <> s).
Proof.
  repeat split.
  - intros []; reflexivity.
  - intros []; reflexivity.
  - intros s g H. apply by_value_returns in H as [H _]. congruence.
  - intros s h H. apply by_value_returns in H as [H _]. congruence.
  - apply by_value_raises in H as [H _]. exact H.
  - apply by_value_raises in H as [_ H]. intros g. apply H, goal_is_member.
  - apply by_value_raises in H as [H _]. exact H.
  - apply by_value_raises in H as [_ H]. intros h0. apply H, horizon_is_member.
Qed.

(** X18: a goal string that is no member's value (a misspelt or
    capitalised id, the empty string) is not an error: the entry point
    answers as for the id balanced, whatever the horizon and capital. *)
Theorem unknown_goal_falls_back (goal_str horizon_str : string) (capital : float) :
  (forall g, goal_value g <> goal_str) ->
  get_investment_recommendations goal_str horizon_str capital
    = get_investment_recommendations "balanced" horizon_str capital.
Proof.
  intros H. unfold get_investment_recommendations.
  rewrite (InvestmentGoal_of_unknown goal_str H). reflexivity.
Qed.

Lemma unknown_goal_falls_back_witness :
  get_investment_recommendations "GROWTH" "long_term" 5000%float
    = get_investment_recommendations "balanced" "long_term" 5000%float.
Proof.
  apply (unknown_goal_falls_back "GROWTH" "long_term" 5000%float).
  intros []; discriminate.
Defined.

(** X19: a horizon string that is no member's value is not an error
    either: the entry point answers as for the id medium_term; the id of
    the longest horizon is very_long, so very_long_term is such a
    string. *)
Theorem unknown_horizon_falls_back (goal_str horizon_str : string) (capital : float) :
  (forall h, horizon_value h <> horizon_str) ->
  get_investment_recommendations goal_str horizon_str capital
    = get_investment_recommendations goal_str "medium_term" capital.
Proof.
  intros H. unfold get_investment_recommendations.
  rewrite (TimeHorizon_of_unknown horizon_str H). reflexivity.
Qed.

Lemma unknown_horizon_falls_back_witness :
  get_investment_recommendations "growth" "very_long_term" 5000%float
    = get_investment_recommendations "growth" "medium_term" 5000%float.
Proof.
  apply (unknown_horizon_falls_back "growth" "very_long_term" 5000%float).
  intros []; discriminate.
Defined.

(** X20: the entry point never raises: for any two strings and any capital
    it builds a plan, the one of [generate_recommendations] for the
    parsed or substituted goal and horizon. *)
Theorem get_investment_recommendations_returns
    (goal_str horizon_str : string) (capital : float) :
  exists g h plan,
    get_investment_recommendations goal_str horizon_str capital = Returns plan /\
    generate_recommendations g h capital = Returns plan /\
    (InvestmentGoal_of goal_str = Returns g \/
     (g = BALANCED /\ forall g', goal_value g' <> goal_str)) /\
    (TimeHorizon_of horizon_str = Returns h \/
     (h = MEDIUM_TERM /\ forall h', horizon_value h' <> horizon_str)).
Proof.
  unfold get_investment_recommendations.
  destruct (InvestmentGoal_of goal_str) as [g|e] eqn:Eg;
    destruct (TimeHorizon_of horizon_str) as [h|e'] eqn:Eh.
  - destruct (generate_recommendations_ok g h capital) as [plan Hp].
    exists g, h, plan. cbn. rewrite Hp. auto.
  - apply by_value_raises in Eh as [-> Hh].
    destruct (generate_recommendations_ok g MEDIUM_TERM capital) as [plan Hp].
    exists g, MEDIUM_TERM, plan. cbn. rewrite Hp.
    repeat split; auto. right. split; [reflexivity|].
    intros h'. apply Hh, horizon_is_member.
  - apply by_value_raises in Eg as [-> Hg].
    destruct (generate_recommendations_ok BALANCED h capital) as [plan Hp].
    exists BALANCED, h, plan. cbn. rewrite Hp.
    repeat split; auto. right. split; [reflexivity|].
    intros g'. apply Hg, goal_is_member.
  - apply by_value_raises in Eg as [-> Hg]. apply by_value_raises in Eh as [-> Hh].
    destruct (generate_recommendations_ok BALANCED MEDIUM_TERM capital) as [plan Hp].
    exists BALANCED, MEDIUM_TERM, plan. cbn. rewrite Hp.
    repeat split; auto; right; (split; [reflexivity|]).
    + intros g'. apply Hg, goal_is_member.
    + intros h'. apply Hh, horizon_is_member.
Qed.

(** X21: every goal and horizon gives a plan, without a KeyError: each
    recommended symbol is a key of MARKET_DATA and carries the name the
    table gives it, each percentage lies in (0, 100] and each confidence
    in [0, 1]; no symbol is recommended twice in a plan, the list is not
    empty, and the plan carries the allocation of
    [calculate_allocation]. *)
Theorem generate_recommendations_well_formed
    (goal : InvestmentGoal) (horizon : TimeHorizon) (capital : float) :
  exists plan,
    generate_recommendations goal horizon capital = Returns plan /\
    allocation plan = calculate_allocation goal horizon /\
    recommendations plan <> [] /\
    Forall well_formed (recommendations plan) /\
    NoDup (map symbol (recommendations plan)).
Proof.
  destruct goal, horizon;
    (eexists; split; [vm_compute; reflexivity|]);
    (split; [reflexivity|]); (split; [discriminate|]);
    (split; apply (bool_decide_unpack _); vm_compute; exact I).
Qed.

(** X22: the percentages of a plan's recommendations total 100 for every
    goal but fixed income, whose list totals 60 for the short horizon and
    75 for the others: part of a fixed-income plan is left without a
    recommendation.  The totals do not follow the computed allocation. *)
Theorem recommendation_percent_total
    (goal : InvestmentGoal) (horizon : TimeHorizon) (capital : float) :
  exists plan,
    generate_recommendations goal horizon capital = Returns plan /\
    total_percent (recommendations plan) =
      match goal, horizon with
      | FIXED_INCOME, SHORT_TERM => 60
      | FIXED_INCOME, _ => 75
      | _, _ => 100
      end.
Proof.
  destruct goal, horizon; eexists; split; vm_compute; reflexivity.
Qed.



(** X24: the ids that the two listing functions advertise are exactly the
    values of the two enumerations, each once: every advertised id parses
    to a member, and every member is advertised. *)
Theorem advertised_ids_are_values :
  (forall g, Some (goal_value g) ∈ map (field "id") get_available_goals) /\
  Forall (fun d => exists g, field "id" d = Some (goal_value g) /\
                             InvestmentGoal_of (goal_value g) = Returns g)
         get_available_goals /\
  NoDup (map (field "id") get_available_goals) /\
  map (field "id") get_available_timeframes
    = map (fun h => Some (horizon_value h)) TimeHorizon_members /\
  (forall h, TimeHorizon_of (horizon_value h) = Returns h).
Proof.
  split; [intros []; vm_compute; set_solver|].
  split.
  { unfold get_available_goals. repeat constructor.
    - exists CAPITAL_PRESERVATION. split; reflexivity.
    - exists FIXED_INCOME. split; reflexivity.
    - exists DIVIDEND. split; reflexivity.
    - exists BALANCED. split; reflexivity.
    - exists GROWTH. split; reflexivity.
    - exists AGGRESSIVE_GROWTH. split; reflexivity. }
  split; [apply (bool_decide_unpack _); vm_compute; exact I|].
  split; [reflexivity|]. intros []; reflexivity.
Qed.

End RecommendationFacts.
